(** * v2ray-core: string matchers and the DNS rule-set builder

    A shallow embedding of
    - [common/strmatcher/matchers.go]: the matcher strategies, and
    - the [conf] package's DNS configuration builder ([compressPattern],
      [loadExternalRules], [getHostPattern], [getHostMapping],
      [NameServerConfig.Build], [DnsConfig.Build]).

    Go strings are byte sequences: they are modelled by [string], whose
    characters are the 256 values of [ascii].  A Go [map] is a [gmap]; the
    order in which a [range] statement visits its keys is unspecified in Go,
    so every [range] over a map takes that order as an explicit argument. *)

From stdpp Require Import gmap strings list fin_maps sorting.
From Stdlib Require Import Ascii String Sorting.Permutation.

Local Open Scope string_scope.
Local Open Scope list_scope.

(** ** Go's string primitives *)

Module GoString.

(** [len(s)] *)
Definition len (s : string) : nat := String.length s.

(** [s[:n]] for [n <= len(s)]. *)
Fixpoint take (n : nat) (s : string) : string :=
  match n, s with
  | S n', String a s' => String a (take n' s')
  | _, _ => EmptyString
  end.

(** [s[n:]] for [n <= len(s)]. *)
Fixpoint drop (n : nat) (s : string) : string :=
  match n, s with
  | S n', String _ s' => drop n' s'
  | _, _ => s
  end.

(** [s[i]]; [None] stands for Go's index-out-of-range panic. *)
Definition index (s : string) (i : nat) : option ascii := String.get i s.

(** [strings.HasPrefix]:
    [len(s) >= len(prefix) && s[0:len(prefix)] == prefix]. *)
Definition HasPrefix (s prefix : string) : bool :=
  (len prefix <=? len s)%nat && String.eqb (take (len prefix) s) prefix.

(** [strings.HasSuffix]:
    [len(s) >= len(suffix) && s[len(s)-len(suffix):] == suffix]. *)
Definition HasSuffix (s suffix : string) : bool :=
  (len suffix <=? len s)%nat && String.eqb (drop (len s - len suffix) s) suffix.

(** [strings.Contains(s, substr)]: [substr] occurs at some offset of [s]. *)
Fixpoint Contains (s substr : string) : bool :=
  HasPrefix s substr ||
  match s with
  | EmptyString => false
  | String _ s' => Contains s' substr
  end.

(** [strings.Split(s, sep)] for a one-byte separator: the pieces of [s]
    between the occurrences of [sep], one more than there are occurrences. *)
Fixpoint Split (s : string) (sep : ascii) : list string :=
  match s with
  | EmptyString => [EmptyString]
  | String a s' =>
      if Ascii.eqb a sep then EmptyString :: Split s' sep
      else match Split s' sep with
           | piece :: pieces => String a piece :: pieces
           | [] => [String a EmptyString]
           end
  end.

(** Insertion of a key into a list sorted by the byte-wise order of Go's
    string comparison. *)
Fixpoint insert_sorted (k : string) (l : list string) : list string :=
  match l with
  | [] => [k]
  | x :: l' => if String.leb k x then k :: l else x :: insert_sorted k l'
  end.

(** [sort.Strings]: the keys in increasing byte-wise order. *)
Definition sort_Strings (l : list string) : list string :=
  foldr insert_sorted [] l.

Lemma str_app_cons a s t : String a s +:+ t = String a (s +:+ t).
Proof. reflexivity. Qed.

Lemma str_app_empty_l t : EmptyString +:+ t = t.
Proof. reflexivity. Qed.

Lemma str_take_drop n s : take n s +:+ drop n s = s.
Proof.
  revert s; induction n as [|n IH]; intros [|a s]; simpl; try reflexivity.
  rewrite str_app_cons. f_equal. apply IH.
Qed.

Lemma str_len_app s t : len (s +:+ t) = len s + len t.
Proof.
  induction s as [|a s IH]; [reflexivity |].
  rewrite str_app_cons. simpl. f_equal. exact IH.
Qed.

Lemma str_take_app s t : take (len s) (s +:+ t) = s.
Proof.
  induction s as [|a s IH]; [now destruct t |].
  rewrite str_app_cons. simpl. f_equal. exact IH.
Qed.

Lemma str_drop_app s t : drop (len s) (s +:+ t) = t.
Proof.
  induction s as [|a s IH]; [reflexivity |].
  rewrite str_app_cons. simpl. exact IH.
Qed.

Lemma str_app_empty_r s : s +:+ EmptyString = s.
Proof.
  induction s as [|a s IH]; [reflexivity |].
  rewrite str_app_cons. f_equal. exact IH.
Qed.

Lemma str_app_assoc s t u : (s +:+ t) +:+ u = s +:+ (t +:+ u).
Proof.
  induction s as [|a s IH]; [reflexivity |].
  rewrite !str_app_cons. f_equal. exact IH.
Qed.

Lemma HasPrefix_spec s p : HasPrefix s p = true <-> exists r, s = p +:+ r.
Proof.
  unfold HasPrefix. rewrite andb_true_iff, Nat.leb_le, String.eqb_eq. split.
  - intros [_ H]. exists (drop (len p) s).
    rewrite <- H at 1. symmetry. apply str_take_drop.
  - intros [r ->]. rewrite str_len_app, str_take_app. split; [lia | reflexivity].
Qed.

Lemma HasSuffix_spec s t : HasSuffix s t = true <-> exists x, s = x +:+ t.
Proof.
  unfold HasSuffix. rewrite andb_true_iff, Nat.leb_le, String.eqb_eq. split.
  - intros [_ H]. exists (take (len s - len t) s).
    rewrite <- H at 2. symmetry. apply str_take_drop.
  - intros [x ->]. rewrite str_len_app. split; [lia |].
    replace (len x + len t - len t) with (len x) by lia. apply str_drop_app.
Qed.

Lemma HasPrefix_len s p : HasPrefix s p = true -> len p <= len s.
Proof. unfold HasPrefix. rewrite andb_true_iff, Nat.leb_le. tauto. Qed.

(** Two prefixes of one string are comparable. *)
Lemma HasPrefix_comparable s p q :
  HasPrefix s p = true -> HasPrefix s q = true ->
  HasPrefix p q = true \/ HasPrefix q p = true.
Proof.
  intros Hp Hq. apply HasPrefix_spec in Hp as [r ->].
  apply HasPrefix_spec in Hq. revert q r Hq.
  induction p as [|a p IH]; intros q r [r' H].
  - right. apply HasPrefix_spec. exists q. reflexivity.
  - destruct q as [|b q].
    + left. apply HasPrefix_spec. exists (String a p). reflexivity.
    + rewrite !str_app_cons in H. injection H as -> H.
      destruct (IH q r (ex_intro _ r' H)) as [Hpq | Hqp].
      * left. apply HasPrefix_spec in Hpq as [u ->].
        apply HasPrefix_spec. exists u. apply str_app_cons.
      * right. apply HasPrefix_spec in Hqp as [u ->].
        apply HasPrefix_spec. exists u. apply str_app_cons.
Qed.

(** The last byte of a non-empty string, read the way [domainMatcher.Match]
    reads it. *)
Lemma index_app_last x c t :
  index ((x +:+ String c EmptyString) +:+ t)
        (len ((x +:+ String c EmptyString) +:+ t) - len t - 1) = Some c.
Proof.
  rewrite !str_len_app. simpl.
  replace (len x + 1 + len t - len t - 1) with (len x) by lia.
  unfold index. induction x as [|a x IH]; [reflexivity |].
  rewrite !str_app_cons. simpl. exact IH.
Qed.

Lemma snoc_inv x : x <> EmptyString ->
  exists y c, x = y +:+ String c EmptyString.
Proof.
  induction x as [|a x IH]; [congruence | intros _].
  destruct x as [|b x].
  - now exists EmptyString, a.
  - destruct IH as (y & c & E); [congruence |].
    exists (String a y), c. rewrite str_app_cons. now f_equal.
Qed.

End GoString.

Import GoString.

(** ** [common/strmatcher/matchers.go] *)

Module strmatcher.

Section Matchers.

(** [*regexp.Regexp] and its [MatchString] belong to Go's standard library. *)
Variable Regexp : Type.
Variable MatchString : Regexp -> string -> bool.

(** The implementations of the [Matcher] interface. *)
Inductive Matcher : Type :=
| fullMatcher (m : string)
| substrMatcher (m : string)
| domainMatcher (m : string)
| regexMatcher (pattern : Regexp)
| notMatcher (matcher : Matcher)
| andMatcher (matcherA matcherB : Matcher).

(** [domainMatcher.Match].  The byte read is in range whenever it is read
    (see [domainMatcher_index_in_range]); [None] would be Go's panic. *)
Definition domainMatch (pattern s : string) : bool :=
  if negb (HasSuffix s pattern) then false
  else (len s =? len pattern)%nat
       || match index s (len s - len pattern - 1) with
          | Some c => Ascii.eqb c "."%char
          | None => false
          end.

(** [Match], together with the receivers whose [Match] method ran, in the
    order the calls started.  Go's [&&] evaluates its right operand only when
    the left one is true. *)
Fixpoint MatchLog (m : Matcher) (s : string) : bool * list Matcher :=
  match m with
  | fullMatcher p => (String.eqb p s, [m])
  | substrMatcher p => (Contains s p, [m])
  | domainMatcher p => (domainMatch p s, [m])
  | regexMatcher r => (MatchString r s, [m])
  | notMatcher inner =>
      let '(r, log) := MatchLog inner s in (negb r, m :: log)
  | andMatcher a b =>
      let '(ra, loga) := MatchLog a s in
      if ra then
        let '(rb, logb) := MatchLog b s in (rb, m :: loga ++ logb)
      else (false, m :: loga)
  end.

Definition Match (m : Matcher) (s : string) : bool := (MatchLog m s).1.

Definition calls (m : Matcher) (s : string) : list Matcher := (MatchLog m s).2.

Lemma domainMatcher_index_in_range pattern s :
  HasSuffix s pattern = true -> len s <> len pattern ->
  is_Some (index s (len s - len pattern - 1)).
Proof.
  intros Hs Hlen. apply HasSuffix_spec in Hs as [x ->].
  destruct (snoc_inv x) as (y & c & ->).
  - intros ->. now apply Hlen.
  - rewrite index_app_last. eauto.
Qed.

Lemma domainMatch_iff p d :
  domainMatch p d = true <->
  d = p \/ exists x, d = x +:+ ("." +:+ p).
Proof.
  unfold domainMatch. split.
  - destruct (HasSuffix d p) eqn:Hs; simpl; [| discriminate].
    apply HasSuffix_spec in Hs as [x ->].
    destruct x as [|a x].
    + now left.
    + intros H. right. destruct (snoc_inv (String a x)) as (y & c & E);
        [discriminate |].
      rewrite E in *. rewrite index_app_last in H.
      apply orb_true_iff in H as [H | H].
      * apply Nat.eqb_eq in H. rewrite !str_len_app in H. simpl in H. lia.
      * apply Ascii.eqb_eq in H as ->. exists y.
        now rewrite str_app_assoc.
  - intros [-> | [x ->]].
    + assert (HasSuffix p p = true) as ->
        by (apply HasSuffix_spec; now exists EmptyString).
      simpl. now rewrite Nat.eqb_refl.
    + assert (HasSuffix (x +:+ ("." +:+ p)) p = true) as ->.
      { apply HasSuffix_spec. exists (x +:+ "."). now rewrite str_app_assoc. }
      simpl. apply orb_true_iff. right.
      change ("." +:+ p) with (String "."%char EmptyString +:+ p).
      rewrite <- str_app_assoc, index_app_last. reflexivity.
Qed.

(** C2.  For every subdomain pattern [p] and candidate [d], the Subdomain
    matcher matches [d] exactly when [d] is [p] or [d] ends with ["." ++ p];
    with pattern ["example.com"] it matches ["example.com"] and
    ["a.example.com"] and rejects ["xexample.com"]. *)
Theorem domainMatcher_Match_iff (p d : string) :
  (Match (domainMatcher p) d = true <->
   d = p \/ exists x, d = x +:+ ("." +:+ p))
  /\ Match (domainMatcher "example.com") "example.com" = true
  /\ Match (domainMatcher "example.com") "a.example.com" = true
  /\ Match (domainMatcher "example.com") "xexample.com" = false.
Proof.
  split; [apply domainMatch_iff |].
  repeat split; vm_compute; reflexivity.
Qed.

(** C8.  [And(a, b)] matches exactly when both [a] and [b] match, [a] is
    tried first and [b] is not run when [a] rejects; [Not(m)] matches exactly
    when [m] does not; [Full("xy") AND NOT Substring("z")] matches ["xy"]. *)
Theorem andMatcher_notMatcher_Match (a b m : Matcher) (s : string) :
  Match (andMatcher a b) s = Match a s && Match b s
  /\ (Match a s = false ->
      calls (andMatcher a b) s = andMatcher a b :: calls a s)
  /\ (Match a s = true ->
      calls (andMatcher a b) s = andMatcher a b :: calls a s ++ calls b s)
  /\ Match (notMatcher m) s = negb (Match m s)
  /\ Match (andMatcher (fullMatcher "xy") (notMatcher (substrMatcher "z")))
           "xy" = true.
Proof.
  unfold Match, calls. simpl.
  destruct (MatchLog a s) as [ra la], (MatchLog b s) as [rb lb],
           (MatchLog m s) as [rm lm]; simpl.
  destruct ra; simpl; repeat split; auto; discriminate.
Qed.

(** *** Further properties of the matchers *)

Lemma Contains_unfold s p :
  Contains s p =
  HasPrefix s p ||
  match s with
  | EmptyString => false
  | String _ s' => Contains s' p
  end.
Proof. destruct s; reflexivity. Qed.

Lemma Contains_HasSuffix s p : HasSuffix s p = true -> Contains s p = true.
Proof.
  intros H. apply HasSuffix_spec in H as [x ->].
  induction x as [|a x IH].
  - rewrite str_app_empty_l, Contains_unfold.
    assert (Hp : HasPrefix p p = true)
      by (apply HasPrefix_spec; exists EmptyString; now rewrite str_app_empty_r).
    now rewrite Hp.
  - rewrite str_app_cons, Contains_unfold, IH. apply orb_true_r.
Qed.

(** Whenever [domainMatcher.Match] reads the byte before the suffix, the
    index [len(s)-len(pattern)-1] is neither negative nor beyond the end of
    [s], and the byte read decides the match. *)
Theorem domainMatcher_read_in_range (pattern s : string) :
  HasSuffix s pattern = true -> len s <> len pattern ->
  len pattern + 1 <= len s
  /\ exists c, index s (len s - len pattern - 1) = Some c
               /\ Match (domainMatcher pattern) s = Ascii.eqb c "."%char.
Proof.
  intros Hs Hlen.
  destruct (domainMatcher_index_in_range pattern s Hs Hlen) as [c Hc].
  split.
  - apply HasSuffix_spec in Hs as [x ->]. rewrite str_len_app in *.
    destruct x; simpl in *; lia.
  - exists c. split; [exact Hc |].
    unfold Match. simpl. unfold domainMatch. rewrite Hs, Hc. simpl.
    apply Nat.eqb_neq in Hlen. now rewrite Hlen.
Qed.

(** What the Full matcher accepts the Subdomain matcher of the same pattern
    accepts, and what the Subdomain matcher accepts the Substring matcher of
    the same pattern accepts. *)
Theorem full_domain_substr_hierarchy (p s : string) :
  (Match (fullMatcher p) s = true -> Match (domainMatcher p) s = true)
  /\ (Match (domainMatcher p) s = true -> Match (substrMatcher p) s = true).
Proof.
  unfold Match. simpl. split.
  - intros H. apply String.eqb_eq in H as ->.
    apply domainMatch_iff. now left.
  - unfold domainMatch. destruct (HasSuffix s p) eqn:E; simpl; [| discriminate].
    intros _. now apply Contains_HasSuffix.
Qed.

(** The Subdomain matcher follows the hierarchy of names: a name that
    matches keeps matching when labels are put in front of it, and whatever
    matches the pattern of a subdomain matches the pattern of its parent. *)
Theorem domainMatcher_labels (p q x y d : string) :
  (Match (domainMatcher p) d = true ->
   Match (domainMatcher p) (x +:+ ("." +:+ d)) = true)
  /\ (Match (domainMatcher (y +:+ ("." +:+ q))) d = true ->
      Match (domainMatcher q) d = true).
Proof.
  unfold Match. simpl. rewrite !domainMatch_iff. split.
  - intros [-> | [z ->]]; right.
    + now exists x.
    + exists (x +:+ ("." +:+ z)). now rewrite !str_app_assoc.
  - intros [-> | [z ->]]; right.
    + now exists y.
    + exists (z +:+ ("." +:+ y)). now rewrite !str_app_assoc.
Qed.

(** The combinators as an algebra of results: [Not] is an involution, [And]
    is commutative, associative and idempotent, and a matcher together with
    its negation matches nothing. *)
Theorem notMatcher_andMatcher_algebra (a b c : Matcher) (s : string) :
  Match (notMatcher (notMatcher a)) s = Match a s
  /\ Match (andMatcher a b) s = Match (andMatcher b a) s
  /\ Match (andMatcher (andMatcher a b) c) s
     = Match (andMatcher a (andMatcher b c)) s
  /\ Match (andMatcher a a) s = Match a s
  /\ Match (andMatcher a (notMatcher a)) s = false.
Proof.
  unfold Match. simpl.
  destruct (MatchLog a s) as [[] la], (MatchLog b s) as [[] lb],
           (MatchLog c s) as [[] lc]; simpl; repeat split; reflexivity.
Qed.

(** The empty pattern: as a substring it matches every string, as a full
    pattern only the empty string, and as a subdomain pattern the empty
    string and the strings that end with a dot. *)
Theorem empty_pattern_Match (s : string) :
  Match (substrMatcher "") s = true
  /\ (Match (fullMatcher "") s = true <-> s = "")
  /\ (Match (domainMatcher "") s = true <-> s = "" \/ exists x, s = x +:+ ".").
Proof.
  unfold Match. simpl. split; [| split].
  - destruct s; reflexivity.
  - destruct s; split; intros H; try reflexivity; discriminate H.
  - rewrite domainMatch_iff. split; (intros [-> | [x ->]]; [now left | right]);
      exists x; reflexivity.
Qed.

End Matchers.

Arguments fullMatcher {Regexp} m.
Arguments substrMatcher {Regexp} m.
Arguments domainMatcher {Regexp} m.
Arguments regexMatcher {Regexp} pattern.
Arguments notMatcher {Regexp} matcher.
Arguments andMatcher {Regexp} matcherA matcherB.

(** A run of C8 in which the left operand rejects: only the conjunction and
    its left operand are called. *)
Lemma andMatcher_notMatcher_Match_witness :
  Match unit (fun _ _ => false) (fullMatcher "a") "x" = false
  /\ calls unit (fun _ _ => false)
       (andMatcher (fullMatcher "a") (substrMatcher "x")) "x"
     = [andMatcher (fullMatcher "a") (substrMatcher "x"); fullMatcher "a"].
Proof.
  split; [reflexivity |].
  apply (andMatcher_notMatcher_Match unit (fun _ _ => false)
           (fullMatcher "a") (substrMatcher "x") (fullMatcher "a") "x").
  reflexivity.
Defined.

(** The byte that decides the match of ["a.example.com"] against
    ["example.com"] is the dot at index 1. *)
Lemma domainMatcher_read_in_range_witness :
  len "example.com" + 1 <= len "a.example.com"
  /\ exists c, index "a.example.com" (len "a.example.com" - len "example.com" - 1)
               = Some c
               /\ Match unit (fun _ _ => false) (domainMatcher "example.com")
                    "a.example.com" = Ascii.eqb c "."%char.
Proof.
  apply (domainMatcher_read_in_range unit (fun _ _ => false)
           "example.com" "a.example.com").
  - reflexivity.
  - vm_compute. discriminate.
Defined.

Lemma full_domain_substr_hierarchy_witness :
  Match unit (fun _ _ => false) (substrMatcher "example.com") "a.example.com"
  = true.
Proof.
  apply (full_domain_substr_hierarchy unit (fun _ _ => false)
           "example.com" "a.example.com").
  reflexivity.
Defined.

Lemma domainMatcher_labels_witness :
  Match unit (fun _ _ => false) (domainMatcher "com") "a.example.com" = true.
Proof.
  apply (domainMatcher_labels unit (fun _ _ => false)
           "" "com" "" "example" "a.example.com").
  reflexivity.
Defined.

End strmatcher.

(** ** Errors and results *)

(** A value handed to [newError]: the code passes strings and one
    [StringList]. *)
Inductive ErrorValue : Type :=
| VString (s : string)
| VStringList (l : list string).

(** [newError(values...)] and the [Base(err)] method of its result. *)
Inductive Error : Type :=
| newError (values : list ErrorValue)
| Base (e inner : Error).

(** What a collaborator outside this package hands back: Go's
    [(value, error)] pair. *)
Inductive returned (A : Type) : Type :=
| Val (a : A)
| Fail (err : Error).
Arguments Val {A} a.
Arguments Fail {A} err.

(** What a function of this package does: it returns normally, returns an
    error, or the Go runtime panics (index out of range, nil dereference). *)
Inductive result (A : Type) : Type :=
| Ok (a : A)
| Err (err : Error)
| Panic.
Arguments Ok {A} a.
Arguments Err {A} err.
Arguments Panic {A}.

#[global] Instance result_ret : MRet result := fun A a => Ok a.
#[global] Instance result_bind : MBind result := fun A B f m =>
  match m with
  | Ok a => f a
  | Err e => Err e
  | Panic => Panic
  end.

(** ** The types of the collaborating packages *)

(** An element of a Go [[]byte]. *)
Abbreviation byte := Init.Byte.byte.

(** Modelled from the spec: the declaration of [conf.Address] is not part of
    the sources at hand.  An address is either a literal IP address (its raw
    bytes) or a domain name, never both.  The test [Family().IsIP()] is the
    case distinction on the constructor, and [IP()] and [Domain()], which the
    code calls only under that test, read the payload. *)
Inductive Address : Type :=
| IPAddress (ip : list byte)
| DomainAddress (domain : string).

Module router.

(** Modelled from the spec: [router.Domain_Type], the four kinds of a domain
    rule, declared outside the sources at hand. *)
Inductive Domain_Type : Type :=
| Domain_Plain | Domain_Regex | Domain_Domain | Domain_Full.

(** Modelled from the spec: [router.Domain], of which the code reads the
    fields [Type] and [Value]. *)
Record Domain : Type := { Type' : Domain_Type; Value : string }.

(** Modelled from the spec: [router.GeoIP], produced by [toCidrList] and only
    stored by this package. *)
Record GeoIP : Type := { CountryCode : string; Cidr : list (list byte * N) }.

End router.

Module dns.

(** Modelled from the spec: [dns.DomainMatchingType]; its zero value, the
    one a freshly allocated mapping carries, is [Full]. *)
Inductive DomainMatchingType : Type :=
| DomainMatchingType_Full
| DomainMatchingType_Subdomain
| DomainMatchingType_Keyword
| DomainMatchingType_Regex.

(** Modelled from the spec: the generated structures of package [dns], with
    the fields this package assigns.  A nil slice is the empty list, a nil
    map the empty map, an unset string the empty string. *)
Record NameServer_PriorityDomain : Type :=
  { pdType : DomainMatchingType; Domain : string }.

Record Endpoint : Type :=
  { Network : string; epAddress : Address; Port : N }.

Record NameServer : Type :=
  { nsAddress : Endpoint;
    PrioritizedDomain : list NameServer_PriorityDomain;
    Geoip : list router.GeoIP }.

Record Config_HostMapping : Type :=
  { Type' : DomainMatchingType;
    Pattern : string;
    Ip : list (list byte);
    ProxiedDomain : string }.

Record ConfigPatterns : Type := { Patterns : list string }.

Record Config_Fake : Type := { FakeNet : string; FakeRules : list string }.

Record Config : Type :=
  { Tag : string;
    ClientIp : list byte;
    NameServer_ : list NameServer;
    HostRules : list Config_HostMapping;
    StaticHosts : list Config_HostMapping;
    ExternalRules : gmap string ConfigPatterns;
    Fake : option Config_Fake }.

Definition with_ClientIp (v : list byte) (c : Config) : Config :=
  {| Tag := Tag c; ClientIp := v; NameServer_ := NameServer_ c;
     HostRules := HostRules c; StaticHosts := StaticHosts c;
     ExternalRules := ExternalRules c; Fake := Fake c |}.

Definition with_NameServer (v : list NameServer) (c : Config) : Config :=
  {| Tag := Tag c; ClientIp := ClientIp c; NameServer_ := v;
     HostRules := HostRules c; StaticHosts := StaticHosts c;
     ExternalRules := ExternalRules c; Fake := Fake c |}.

Definition with_HostRules (v : list Config_HostMapping) (c : Config) : Config :=
  {| Tag := Tag c; ClientIp := ClientIp c; NameServer_ := NameServer_ c;
     HostRules := v; StaticHosts := StaticHosts c;
     ExternalRules := ExternalRules c; Fake := Fake c |}.

Definition with_StaticHosts (v : list Config_HostMapping) (c : Config) : Config :=
  {| Tag := Tag c; ClientIp := ClientIp c; NameServer_ := NameServer_ c;
     HostRules := HostRules c; StaticHosts := v;
     ExternalRules := ExternalRules c; Fake := Fake c |}.

Definition with_ExternalRules (v : gmap string ConfigPatterns) (c : Config)
  : Config :=
  {| Tag := Tag c; ClientIp := ClientIp c; NameServer_ := NameServer_ c;
     HostRules := HostRules c; StaticHosts := StaticHosts c;
     ExternalRules := v; Fake := Fake c |}.

Definition with_Fake (v : option Config_Fake) (c : Config) : Config :=
  {| Tag := Tag c; ClientIp := ClientIp c; NameServer_ := NameServer_ c;
     HostRules := HostRules c; StaticHosts := StaticHosts c;
     ExternalRules := ExternalRules c; Fake := v |}.

End dns.

(** ** Package [conf]: the DNS configuration builder *)

Module conf.

Import router dns.

Record NameServerConfig : Type :=
  { Address_ : option Address;
    nscPort : N;
    Domains : list string;
    ExpectIPs : list string }.

Record FakeIPConfig : Type :=
  { FakeRules : list string;
    FakeNet : string }.

(** [DnsConfig].  [Hosts] is a Go map: a nil map and an empty one behave
    alike under [len], [range] and lookup, the only operations applied.
    In Go the entries of [Servers] and the targets of [Hosts] are pointers;
    here they are the values pointed to.  A nil entry or target (a JSON
    [null]), on which the Go code panics at its first use ([server.Build]
    reading [c.Address], [getHostPattern] calling [addr.Family()]), is
    therefore no value of this record: what is proved of [Build] is proved
    of the configurations whose servers and targets are all present. *)
Record DnsConfig : Type :=
  { Servers : list NameServerConfig;
    Hosts : gmap string Address;
    ClientIP : option Address;
    Tag : string;
    Fake : option FakeIPConfig }.

Definition with_Hosts (v : gmap string Address) (c : DnsConfig) : DnsConfig :=
  {| Servers := Servers c; Hosts := v; ClientIP := ClientIP c;
     Tag := Tag c; Fake := Fake c |}.

Definition with_Fake (v : option FakeIPConfig) (c : DnsConfig) : DnsConfig :=
  {| Servers := Servers c; Hosts := Hosts c; ClientIP := ClientIP c;
     Tag := Tag c; Fake := v |}.

(** [toDomainMatchingType].  In Go [router.Domain_Type] is an integer
    enumeration, and a value other than the four named ones reaches
    [default: panic("unknown domain type")].  [Domain_Type] holds the four
    named kinds only, so that branch and its panic have no counterpart
    here: nothing below says what happens to a rule of an unknown kind. *)
Definition toDomainMatchingType (t : Domain_Type) : DomainMatchingType :=
  match t with
  | Domain_Domain => DomainMatchingType_Subdomain
  | Domain_Full => DomainMatchingType_Full
  | Domain_Plain => DomainMatchingType_Keyword
  | Domain_Regex => DomainMatchingType_Regex
  end.

(** The table [typeMap]. *)
Definition typeMap (t : Domain_Type) : DomainMatchingType :=
  match t with
  | Domain_Full => DomainMatchingType_Full
  | Domain_Domain => DomainMatchingType_Subdomain
  | Domain_Plain => DomainMatchingType_Keyword
  | Domain_Regex => DomainMatchingType_Regex
  end.

(** The table [prefixMapper], its entries in the order of the source text. *)
Definition prefixMapper : list (string * string) :=
  [ ("domain:", "d");
    ("regexp:", "r");
    ("keyword:", "k");
    ("full:", "f");
    ("geosite:", "egeosite.dat:");
    ("ext:", "e");
    ("geoip:", "i") ].

(** The table [typeMapper]. *)
Definition typeMapper (t : Domain_Type) : string :=
  match t with
  | Domain_Full => "f"
  | Domain_Domain => "d"
  | Domain_Plain => "k"
  | Domain_Regex => "r"
  end.

(** [compressPattern], with the order in which [range prefixMapper] hands
    out the entries made explicit. *)
Fixpoint compressPattern_range (entries : list (string * string))
    (pattern : string) : string :=
  match entries with
  | [] => "f" +:+ pattern
  | (prefix, cmd) :: rest =>
      if HasPrefix pattern prefix
      then cmd +:+ drop (len prefix) pattern
      else compressPattern_range rest pattern
  end.

(** [compressPattern] when the entries come in the order of the source text;
    every other order gives the same string
    ([compressPattern_range_any_order]). *)
Definition compressPattern (pattern : string) : string :=
  compressPattern_range prefixMapper pattern.

(** [getHostMapping] *)
Definition getHostMapping (addr : Address) : Config_HostMapping :=
  match addr with
  | IPAddress ip =>
      {| dns.Type' := DomainMatchingType_Full; Pattern := "";
         Ip := [ip]; ProxiedDomain := "" |}
  | DomainAddress domain =>
      {| dns.Type' := DomainMatchingType_Full; Pattern := "";
         Ip := []; ProxiedDomain := domain |}
  end.

(** [mapping.Type = t; mapping.Pattern = p] on a fresh [getHostMapping]. *)
Definition typed (t : DomainMatchingType) (p : string)
    (mapping : Config_HostMapping) : Config_HostMapping :=
  {| dns.Type' := t; Pattern := p;
     Ip := Ip mapping; ProxiedDomain := ProxiedDomain mapping |}.

(** The range order of a map: each key once. *)
Definition range_order {A : Type} (m : gmap string A) (order : list string)
  : Prop :=
  order ≡ₚ (map_to_list m).*1.

(** *** The pattern compressor *)

(** The entries of [entries] whose prefix [pattern] starts with. *)
Definition hits (pattern : string) (entries : list (string * string))
  : list (string * string) :=
  filter (fun e => Is_true (HasPrefix pattern e.1)) entries.

Lemma compressPattern_range_hits entries pattern :
  compressPattern_range entries pattern =
  match hits pattern entries with
  | [] => "f" +:+ pattern
  | (prefix, cmd) :: _ => cmd +:+ drop (len prefix) pattern
  end.
Proof.
  unfold hits. induction entries as [|[prefix cmd] rest IH]; [reflexivity |].
  rewrite filter_cons. simpl.
  destruct (HasPrefix pattern prefix) eqn:E; rewrite decide_bool_decide.
  - now rewrite bool_decide_eq_true_2.
  - rewrite bool_decide_eq_false_2; [exact IH | tauto].
Qed.

(** The prefixes of [prefixMapper] exclude one another: a pattern starts
    with at most one of them. *)
Lemma hits_prefixMapper pattern :
  List.length (hits pattern prefixMapper) <= 1.
Proof.
  unfold hits, prefixMapper. rewrite !filter_cons, filter_nil. simpl.
  repeat match goal with
  | |- context [decide (Is_true (HasPrefix pattern ?p))] =>
      let E := fresh "E" in
      destruct (HasPrefix pattern p) eqn:E; rewrite decide_bool_decide;
      [rewrite bool_decide_eq_true_2 by exact I
      |rewrite bool_decide_eq_false_2 by tauto]
  end; simpl; try lia;
  exfalso;
  match goal with
  | H1 : HasPrefix pattern ?p = true, H2 : HasPrefix pattern ?q = true |- _ =>
      lazymatch p with
      | q => fail
      | _ => destruct (HasPrefix_comparable _ _ _ H1 H2) as [F | F];
             vm_compute in F; discriminate F
      end
  end.
Qed.

(** Whatever the order in which [range prefixMapper] hands out the table,
    [compressPattern] returns the same string. *)
Lemma compressPattern_range_any_order entries pattern :
  entries ≡ₚ prefixMapper ->
  compressPattern_range entries pattern = compressPattern pattern.
Proof.
  intros Hperm. unfold compressPattern.
  rewrite !compressPattern_range_hits.
  assert (Hh : hits pattern entries ≡ₚ hits pattern prefixMapper)
    by (unfold hits; now rewrite Hperm).
  pose proof (hits_prefixMapper pattern) as Hlen.
  destruct (hits pattern prefixMapper) as [|e [|e' l]]; simpl in Hlen.
  - apply Permutation_nil_r in Hh. now rewrite Hh.
  - apply Permutation_singleton_r in Hh. now rewrite Hh.
  - lia.
Qed.

(** What [compressPattern] returns: the fallback, or the code of the one
    entry whose prefix the pattern starts with. *)
Lemma compressPattern_cases pattern :
  (hits pattern prefixMapper = [] /\
   compressPattern pattern = "f" +:+ pattern)
  \/ (exists prefix cmd,
        (prefix, cmd) ∈ prefixMapper /\
        HasPrefix pattern prefix = true /\
        compressPattern pattern = cmd +:+ drop (len prefix) pattern).
Proof.
  unfold compressPattern. rewrite compressPattern_range_hits.
  destruct (hits pattern prefixMapper) as [|[prefix cmd] l] eqn:E.
  - now left.
  - right. exists prefix, cmd.
    assert (Hin : (prefix, cmd) ∈ hits pattern prefixMapper)
      by (rewrite E; left).
    apply list_elem_of_filter in Hin as [Hhit Hin]. simpl in Hhit.
    repeat split; [exact Hin | now apply Is_true_eq_true].
Qed.

Lemma compressPattern_prefixed prefix cmd value :
  (prefix, cmd) ∈ prefixMapper ->
  compressPattern (prefix +:+ value) = cmd +:+ value.
Proof.
  intros Hin. unfold compressPattern. rewrite compressPattern_range_hits.
  assert (Hhit : (prefix, cmd) ∈ hits (prefix +:+ value) prefixMapper).
  { apply list_elem_of_filter. split; [| exact Hin]. simpl.
    apply Is_true_eq_left, HasPrefix_spec. now exists value. }
  pose proof (hits_prefixMapper (prefix +:+ value)) as Hlen.
  destruct (hits (prefix +:+ value) prefixMapper) as [|e [|e' l]];
    simpl in Hlen; [inversion Hhit | | lia].
  apply list_elem_of_singleton in Hhit as <-. now rewrite str_drop_app.
Qed.

(** The marker byte of every code of [prefixMapper]. *)
Definition markers : list ascii :=
  ["d"; "f"; "k"; "r"; "i"; "e"]%char.

Lemma compressPattern_head pattern :
  exists cmd rest,
    compressPattern pattern = String cmd rest /\ cmd ∈ markers.
Proof.
  destruct (compressPattern_cases pattern)
    as [[_ ->] | (prefix & cmd & Hin & _ & ->)].
  - exists "f"%char, pattern. split; [reflexivity |].
    unfold markers. set_solver.
  - unfold prefixMapper in Hin.
    repeat (apply elem_of_cons in Hin as [Hin | Hin];
            [injection Hin as -> ->; eexists _, _;
             split; [reflexivity | unfold markers; set_solver] |]).
    inversion Hin.
Qed.

Section Builder.

Set Default Proof Using "Type".

(** The collaborators: the list loader, the rule parser and the CIDR-list
    builder live in files of the package that are not at hand;
    [strings.ToUpper] and [Address.String] come from libraries. *)
Variable loadGeositeWithAttr : string -> string -> returned (list router.Domain).
Variable parseDomainRule : string -> returned (list router.Domain).
Variable toCidrList : list string -> returned (list GeoIP).
Variable ToUpper : string -> string.
Variable Address_String : Address -> string.

(** The body of the [for _, d := range c.Domains] loop of
    [NameServerConfig.Build]. *)
Fixpoint buildDomains (ds : list string)
    (domains : list NameServer_PriorityDomain)
  : result (list NameServer_PriorityDomain) :=
  match ds with
  | [] => Ok domains
  | d :: rest =>
      match parseDomainRule d with
      | Fail err =>
          Err (Base (newError [VString "invalid domain rule: "; VString d]) err)
      | Val parsedDomain =>
          buildDomains rest
            (domains ++
             map (fun pd => {| pdType := toDomainMatchingType (router.Type' pd);
                               Domain := Value pd |}) parsedDomain)
      end
  end.

(** [NameServerConfig.Build].  [Address.Build] converts the address to the
    wire form of the same two alternatives and is kept as the identity. *)
Definition NameServerConfig_Build (c : NameServerConfig) : result NameServer :=
  match Address_ c with
  | None => Err (newError [VString "NameServer address is not specified."])
  | Some address =>
      domains ← buildDomains (Domains c) [];
      match toCidrList (ExpectIPs c) with
      | Fail err =>
          Err (Base (newError [VString "invalid ip rule: ";
                               VStringList (ExpectIPs c)]) err)
      | Val geoipList =>
          Ok {| nsAddress := {| Network := "UDP"; epAddress := address;
                                Port := nscPort c |};
                PrioritizedDomain := domains;
                Geoip := geoipList |}
      end
  end.

(** [loadExternalRules].  Every [return] with an error precedes the first
    write to [c], so [Err] leaves the configuration as it was. *)
Definition loadExternalRules (pattern : string) (c : Config) : result Config :=
  match index pattern 0 with
  | None => Panic
  | Some cmd =>
      if negb (Ascii.eqb cmd "e"%char) then Ok c
      else
        let arg := drop 1 pattern in
        match Split arg ":"%char with
        | [filename; country] =>
            match loadGeositeWithAttr filename country with
            | Fail err =>
                Err (Base (newError [VString "invalid external settings from ";
                                     VString filename; VString ": ";
                                     VString arg]) err)
            | Val domains =>
                let externRules :=
                  {| Patterns :=
                       map (fun d => typeMapper (router.Type' d) +:+ Value d)
                           domains |} in
                Ok (with_ExternalRules
                      (<[arg := externRules]> (ExternalRules c)) c)
            end
        | _ => Err (newError [VString "invalid external resource: ";
                              VString arg])
        end
  end.

(** [getHostPattern]: the item is appended only when its external rules
    load; an error of [loadExternalRules] is dropped. *)
Definition getHostPattern (addr : Address) (pattern : string) (c : Config)
  : result Config :=
  let item := typed DomainMatchingType_Full (compressPattern pattern)
                    (getHostMapping addr) in
  match loadExternalRules (Pattern item) c with
  | Ok c' => Ok (with_HostRules (HostRules c' ++ [item]) c')
  | Err _ => Ok c
  | Panic => Panic
  end.

(** One mapping per resolved entry, all with the target [addr]. *)
Definition expand (addr : Address) (domains : list router.Domain)
  : list Config_HostMapping :=
  map (fun d => typed (typeMap (router.Type' d)) (Value d) (getHostMapping addr))
      domains.

(** The chain of prefix tests in the second loop of [DnsConfig.Build]: the
    [mappings] of one key. *)
Definition hostMappings (domain : string) (addr : Address)
  : result (list Config_HostMapping) :=
  if HasPrefix domain "domain:" then
    Ok [typed DomainMatchingType_Subdomain (drop 7 domain) (getHostMapping addr)]
  else if HasPrefix domain "geosite:" then
    match loadGeositeWithAttr "geosite.dat" (ToUpper (drop 8 domain)) with
    | Fail err =>
        Err (Base (newError [VString "invalid geosite settings: ";
                             VString domain]) err)
    | Val domains => Ok (expand addr domains)
    end
  else if HasPrefix domain "regexp:" then
    Ok [typed DomainMatchingType_Regex (drop 7 domain) (getHostMapping addr)]
  else if HasPrefix domain "keyword:" then
    Ok [typed DomainMatchingType_Keyword (drop 8 domain) (getHostMapping addr)]
  else if HasPrefix domain "full:" then
    Ok [typed DomainMatchingType_Full (drop 5 domain) (getHostMapping addr)]
  else if HasPrefix domain "ext:" then
    match Split (drop 4 domain) ":"%char with
    | [filename; country] =>
        match loadGeositeWithAttr filename country with
        | Fail err =>
            Err (Base (newError [VString "failed to load domains: ";
                                 VString country; VString " from ";
                                 VString filename]) err)
        | Val domains => Ok (expand addr domains)
        end
    | _ => Err (newError [VString "invalid external resource: ";
                          VString domain])
    end
  else
    Ok [typed DomainMatchingType_Full domain (getHostMapping addr)].

(** The first loop over [c.Hosts]: [for pattern, address := range c.Hosts],
    the keys visited in [order]. *)
Fixpoint rangeHosts (hosts : gmap string Address) (order : list string)
    (domains : list string) (config : Config)
  : result (list string * Config) :=
  match order with
  | [] => Ok (domains, config)
  | pattern :: rest =>
      match hosts !! pattern with
      | Some address =>
          config' ← getHostPattern address pattern config;
          rangeHosts hosts rest (domains ++ [pattern]) config'
      | None => rangeHosts hosts rest domains config
      end
  end.

(** The second loop: [for _, domain := range domains] over the sorted keys.
    [c.Hosts[domain]] of a key that is absent is nil, and reading the family
    of a nil address panics. *)
Fixpoint staticHosts (hosts : gmap string Address) (domains : list string)
    (config : Config) : result Config :=
  match domains with
  | [] => Ok config
  | domain :: rest =>
      match hosts !! domain with
      | None => Panic
      | Some addr =>
          mappings ← hostMappings domain addr;
          staticHosts hosts rest
            (with_StaticHosts (StaticHosts config ++ mappings) config)
      end
  end.

(** The [if c.ClientIP != nil] block. *)
Definition buildClientIP (c : DnsConfig) (config : Config) : result Config :=
  match ClientIP c with
  | None => Ok config
  | Some ip =>
      match ip with
      | DomainAddress _ =>
          Err (newError [VString "not an IP address:";
                         VString (Address_String ip)])
      | IPAddress bytes => Ok (with_ClientIp bytes config)
      end
  end.

(** The [for _, server := range c.Servers] loop. *)
Fixpoint buildServers (servers : list NameServerConfig) (config : Config)
  : result Config :=
  match servers with
  | [] => Ok config
  | server :: rest =>
      match NameServerConfig_Build server with
      | Ok ns =>
          buildServers rest
            (with_NameServer (NameServer_ config ++ [ns]) config)
      | Err err =>
          Err (Base (newError [VString "failed to build name server"]) err)
      | Panic => Panic
      end
  end.

(** The [if c.Hosts != nil && len(c.Hosts) > 0] block. *)
Definition buildHosts (order : list string) (c : DnsConfig) (config : Config)
  : result Config :=
  if (0 <? size (Hosts c))%nat then
    '(domains, config') ← rangeHosts (Hosts c) order [] config;
    staticHosts (Hosts c) (sort_Strings domains) config'
  else Ok config.

(** The loop over [c.Fake.FakeRules]: the patterns kept, in order, and the
    configuration with the external rules they loaded. *)
Fixpoint fakeRulesLoop (patterns : list string) (fakeRules : list string)
    (config : Config) : result (list string * Config) :=
  match patterns with
  | [] => Ok (fakeRules, config)
  | pattern :: rest =>
      let newPattern := compressPattern pattern in
      match loadExternalRules newPattern config with
      | Ok config' => fakeRulesLoop rest (fakeRules ++ [newPattern]) config'
      | Err _ => fakeRulesLoop rest fakeRules config
      | Panic => Panic
      end
  end.

(** The [if c.Fake != nil] block. *)
Definition buildFake (c : DnsConfig) (config : Config) : result Config :=
  match Fake c with
  | None => Ok config
  | Some fake =>
      let fakeNet :=
        if String.eqb (FakeNet fake) "" then "224.0.0.0/8" else FakeNet fake in
      '(fakeRules, config') ← fakeRulesLoop (FakeRules fake) [] config;
      Ok (dns.with_Fake
            (Some {| dns.FakeNet := fakeNet; dns.FakeRules := fakeRules |})
            config')
  end.

(** [DnsConfig.Build]; [order] is the order in which this run's
    [range c.Hosts] visits the keys.  Every [return] of [Build] that carries
    an error carries [nil] for the configuration: [Err] holds no [Config]. *)
Definition Build (order : list string) (c : DnsConfig) : result Config :=
  let config :=
    {| dns.Tag := Tag c; ClientIp := []; NameServer_ := [];
       HostRules := []; StaticHosts := []; ExternalRules := ∅;
       dns.Fake := None |} in
  config ← buildClientIP c config;
  config ← buildServers (Servers c) config;
  config ← buildHosts order c config;
  buildFake c config.

(** *** Loading external rules *)

Lemma loadExternalRules_String cmd rest c :
  loadExternalRules (String cmd rest) c <> Panic
  /\ (cmd <> "e"%char -> loadExternalRules (String cmd rest) c = Ok c).
Proof.
  unfold loadExternalRules. simpl. split.
  - destruct (Ascii.eqb cmd "e"); simpl; [| discriminate].
    destruct (Split _ _) as [|? [|? [|? ?]]]; try discriminate.
    destruct (loadGeositeWithAttr _ _); discriminate.
  - intros Hne. apply Ascii.eqb_neq in Hne. now rewrite Hne.
Qed.

(** What [loadExternalRules] does with a pattern does not depend on the
    configuration it writes to: nothing to load, an entry to store under a
    key, or a failure. *)
Definition externalRulesOf (pattern : string)
  : result (option (string * ConfigPatterns)) :=
  match loadExternalRules pattern
          {| dns.Tag := ""; ClientIp := []; NameServer_ := [];
             HostRules := []; StaticHosts := []; ExternalRules := ∅;
             dns.Fake := None |} with
  | Ok c' =>
      Ok (match map_to_list (ExternalRules c') with
          | entry :: _ => Some entry
          | [] => None
          end)
  | Err e => Err e
  | Panic => Panic
  end.

(** The write [loadExternalRules] performs, if any. *)
Definition store (entry : option (string * ConfigPatterns)) (c : Config)
  : Config :=
  match entry with
  | None => c
  | Some (arg, externRules) =>
      with_ExternalRules (<[arg := externRules]> (ExternalRules c)) c
  end.

Lemma loadExternalRules_store pattern c :
  loadExternalRules pattern c =
  entry ← externalRulesOf pattern; Ok (store entry c).
Proof.
  unfold externalRulesOf, loadExternalRules.
  destruct (index pattern 0) as [cmd|]; [| reflexivity].
  destruct (negb (Ascii.eqb cmd "e")); [reflexivity |].
  destruct (Split _ _) as [|filename [|country [|? ?]]]; try reflexivity.
  destruct (loadGeositeWithAttr filename country); [| reflexivity].
  simpl. rewrite insert_empty, map_to_list_singleton. reflexivity.
Qed.

(** The fields [loadExternalRules] and [getHostPattern] never touch. *)
Definition same_static (c c' : Config) : Prop :=
  dns.Tag c' = dns.Tag c /\ ClientIp c' = ClientIp c
  /\ NameServer_ c' = NameServer_ c /\ StaticHosts c' = StaticHosts c
  /\ dns.Fake c' = dns.Fake c.

Lemma same_static_refl c : same_static c c.
Proof. now repeat split. Qed.

Lemma same_static_trans c1 c2 c3 :
  same_static c1 c2 -> same_static c2 c3 -> same_static c1 c3.
Proof.
  unfold same_static. intros (?&?&?&?&?) (?&?&?&?&?).
  repeat split; congruence.
Qed.

Lemma store_same_static entry c :
  same_static c (store entry c) /\ HostRules (store entry c) = HostRules c.
Proof. destruct entry as [[arg rules]|]; now repeat split. Qed.

(** On the output of [compressPattern], [loadExternalRules] returns. *)
Lemma externalRulesOf_compressPattern pattern :
  externalRulesOf (compressPattern pattern) <> Panic.
Proof.
  destruct (compressPattern_head pattern) as (cmd & rest & -> & _).
  unfold externalRulesOf.
  pose proof (loadExternalRules_String cmd rest) as H.
  match goal with |- context [loadExternalRules _ ?c] =>
    destruct (H c) as [Hp _]; destruct (loadExternalRules _ c) end;
    [discriminate | discriminate | congruence].
Qed.

(** Whether the external rules of a compressed pattern load. *)
Definition loads (pattern : string) : bool :=
  match externalRulesOf pattern with
  | Ok _ => true
  | _ => false
  end.

Lemma loads_true pattern c :
  loads pattern = true <-> exists c', loadExternalRules pattern c = Ok c'.
Proof.
  unfold loads. rewrite loadExternalRules_store.
  destruct (externalRulesOf pattern); simpl; split;
    (intros [? ?] || intros ?); eauto; discriminate.
Qed.

Lemma loads_false pattern c :
  loads (compressPattern pattern) = false <->
  exists e, loadExternalRules (compressPattern pattern) c = Err e.
Proof.
  unfold loads. rewrite loadExternalRules_store.
  pose proof (externalRulesOf_compressPattern pattern) as Hp.
  destruct (externalRulesOf (compressPattern pattern)); simpl; split;
    (intros [? ?] || intros ?); eauto; try discriminate; congruence.
Qed.

(** *** The loops of [DnsConfig.Build] *)

(** The item [getHostPattern] builds for a key. *)
Definition hostItem (addr : Address) (pattern : string) : Config_HostMapping :=
  typed DomainMatchingType_Full (compressPattern pattern) (getHostMapping addr).

Lemma getHostPattern_Ok addr pattern c :
  exists c',
    getHostPattern addr pattern c = Ok c'
    /\ same_static c c'
    /\ HostRules c' =
       HostRules c ++
       (if loads (compressPattern pattern) then [hostItem addr pattern]
        else []).
Proof.
  unfold getHostPattern, loads. simpl. rewrite loadExternalRules_store.
  pose proof (externalRulesOf_compressPattern pattern) as Hp.
  destruct (externalRulesOf (compressPattern pattern)) as [entry|e|];
    simpl; [| | congruence].
  - eexists. split; [reflexivity |].
    destruct (store_same_static entry c) as [Hs Hr].
    split; [exact Hs |]. simpl. now rewrite Hr.
  - exists c. split; [reflexivity |].
    split; [apply same_static_refl | now rewrite app_nil_r].
Qed.

(** The items the first loop appends, in the order of the visit. *)
Fixpoint hostItems (hosts : gmap string Address) (order : list string)
  : list Config_HostMapping :=
  match order with
  | [] => []
  | pattern :: rest =>
      match hosts !! pattern with
      | Some address =>
          (if loads (compressPattern pattern)
           then [hostItem address pattern] else []) ++ hostItems hosts rest
      | None => hostItems hosts rest
      end
  end.

Lemma rangeHosts_Ok hosts order domains config :
  (forall k, k ∈ order -> is_Some (hosts !! k)) ->
  exists config',
    rangeHosts hosts order domains config = Ok (domains ++ order, config')
    /\ same_static config config'
    /\ HostRules config' = HostRules config ++ hostItems hosts order.
Proof.
  revert domains config.
  induction order as [|pattern rest IH]; intros domains config Hkeys.
  - exists config. simpl. rewrite !app_nil_r.
    split; [reflexivity | split; [apply same_static_refl | reflexivity]].
  - simpl. destruct (Hkeys pattern) as [address Hl]; [left |]. rewrite Hl.
    destruct (getHostPattern_Ok address pattern config) as (c1 & -> & Hs1 & Hr1).
    simpl. destruct (IH (domains ++ [pattern]) c1) as (c2 & -> & Hs2 & Hr2).
    { intros k Hk. apply Hkeys. now right. }
    exists c2. rewrite <- app_assoc. split; [reflexivity |].
    split; [eapply same_static_trans; eassumption |].
    rewrite Hr2, Hr1, <- app_assoc. reflexivity.
Qed.

Lemma hostMappings_not_Panic domain addr : hostMappings domain addr <> Panic.
Proof.
  unfold hostMappings.
  repeat match goal with
  | |- context [if HasPrefix domain ?p then _ else _] =>
      destruct (HasPrefix domain p)
  end; try discriminate.
  - destruct (loadGeositeWithAttr _ _); discriminate.
  - destruct (Split _ _) as [|? [|? [|? ?]]]; try discriminate.
    destruct (loadGeositeWithAttr _ _); discriminate.
Qed.

(** The mappings the second loop appends when every key expands. *)
Fixpoint staticMappings (hosts : gmap string Address) (domains : list string)
  : result (list Config_HostMapping) :=
  match domains with
  | [] => Ok []
  | domain :: rest =>
      match hosts !! domain with
      | None => Panic
      | Some addr =>
          mappings ← hostMappings domain addr;
          more ← staticMappings hosts rest;
          Ok (mappings ++ more)
      end
  end.

Lemma staticHosts_staticMappings hosts domains config :
  staticHosts hosts domains config =
  mappings ← staticMappings hosts domains;
  Ok (with_StaticHosts (StaticHosts config ++ mappings) config).
Proof.
  revert config. induction domains as [|domain rest IH]; intros config; simpl.
  - rewrite app_nil_r. now destruct config.
  - destruct (hosts !! domain) as [addr|]; [| reflexivity].
    destruct (hostMappings domain addr) as [mappings|e|]; try reflexivity.
    simpl. rewrite IH.
    destruct (staticMappings hosts rest) as [more|e|]; try reflexivity.
    simpl. now rewrite <- app_assoc.
Qed.

Lemma staticMappings_Err hosts domains bad :
  (forall k, k ∈ domains -> is_Some (hosts !! k)) ->
  bad ∈ domains ->
  (forall addr, exists e, hostMappings bad addr = Err e) ->
  exists e, staticMappings hosts domains = Err e.
Proof.
  intros Hkeys Hbad Herr.
  induction domains as [|domain rest IH]; [inversion Hbad |].
  simpl. destruct (Hkeys domain) as [addr ->]; [left |].
  pose proof (hostMappings_not_Panic domain addr) as Hp.
  destruct (hostMappings domain addr) as [mappings|e|] eqn:E;
    simpl; [| eauto | congruence].
  destruct IH as [e ->]; [intros k Hk; apply Hkeys; now right | | eauto].
  apply elem_of_cons in Hbad as [-> | Hbad]; [| exact Hbad].
  destruct (Herr addr) as [e He]. congruence.
Qed.

Lemma insert_sorted_Permutation k l : insert_sorted k l ≡ₚ k :: l.
Proof.
  induction l as [|x l IH]; simpl; [reflexivity |].
  destruct (String.leb k x); [reflexivity |].
  rewrite IH. apply perm_swap.
Qed.

Lemma sort_Strings_Permutation l : sort_Strings l ≡ₚ l.
Proof.
  unfold sort_Strings. induction l as [|x l IH]; simpl; [reflexivity |].
  now rewrite insert_sorted_Permutation, IH.
Qed.

Lemma range_order_lookup {A} (m : gmap string A) order k :
  range_order m order -> k ∈ order <-> is_Some (m !! k).
Proof.
  unfold range_order. intros ->. rewrite list_elem_of_fmap. split.
  - intros [[k' a] [-> Hin]]. apply elem_of_map_to_list in Hin. eauto.
  - intros [a Ha]. exists (k, a). split; [reflexivity |].
    now apply elem_of_map_to_list.
Qed.

(** The patterns [fakeRulesLoop] keeps. *)
Definition kept (patterns : list string) : list string :=
  List.filter loads (map compressPattern patterns).

Lemma fakeRulesLoop_Ok patterns fakeRules config :
  exists config',
    fakeRulesLoop patterns fakeRules config
      = Ok (fakeRules ++ kept patterns, config')
    /\ same_static config config'
    /\ HostRules config' = HostRules config.
Proof.
  revert fakeRules config.
  induction patterns as [|pattern rest IH]; intros fakeRules config.
  - exists config. unfold kept. simpl. rewrite app_nil_r.
    split; [reflexivity | split; [apply same_static_refl | reflexivity]].
  - unfold kept. simpl. unfold loads at 1.
    rewrite loadExternalRules_store.
    pose proof (externalRulesOf_compressPattern pattern) as Hp.
    destruct (externalRulesOf (compressPattern pattern)) as [entry|e|];
      simpl; [| | congruence].
    + destruct (IH (fakeRules ++ [compressPattern pattern]) (store entry config))
        as (c2 & -> & Hs & Hr).
      destruct (store_same_static entry config) as [Hs0 Hr0].
      exists c2. rewrite <- app_assoc. split; [reflexivity |].
      split; [eapply same_static_trans; eassumption | congruence].
    + apply IH.
Qed.

(** *** The phases of [DnsConfig.Build] *)

(** The configuration [Build] starts from. *)
Definition initial (c : DnsConfig) : Config :=
  {| dns.Tag := Tag c; ClientIp := []; NameServer_ := [];
     HostRules := []; StaticHosts := []; ExternalRules := ∅;
     dns.Fake := None |}.

(** The client address and the name servers: what [Build] does before it
    looks at [c.Hosts]. *)
Definition buildPrelude (c : DnsConfig) : result Config :=
  config ← buildClientIP c (initial c);
  buildServers (Servers c) config.

Lemma Build_phases order c :
  Build order c =
  config ← buildPrelude c;
  config ← buildHosts order c config;
  buildFake c config.
Proof.
  unfold Build, buildPrelude. fold (initial c).
  destruct (buildClientIP c (initial c)); reflexivity.
Qed.

Lemma buildDomains_not_Panic ds domains : buildDomains ds domains <> Panic.
Proof.
  revert domains. induction ds as [|d rest IH]; intros domains; simpl;
    [discriminate |].
  destruct (parseDomainRule d); [apply IH | discriminate].
Qed.

Lemma buildServers_frame servers config :
  match buildServers servers config with
  | Ok config' =>
      dns.Tag config' = dns.Tag config /\ HostRules config' = HostRules config
      /\ StaticHosts config' = StaticHosts config
      /\ ExternalRules config' = ExternalRules config
      /\ dns.Fake config' = dns.Fake config
  | Err _ => True
  | Panic => False
  end.
Proof.
  revert config. induction servers as [|server rest IH]; intros config; simpl;
    [now repeat split |].
  unfold NameServerConfig_Build.
  destruct (Address_ server) as [address|]; simpl; [| exact I].
  pose proof (buildDomains_not_Panic (Domains server) []) as Hp.
  destruct (buildDomains (Domains server) []) as [domains|e|];
    simpl; [| exact I | congruence].
  destruct (toCidrList (ExpectIPs server)) as [geoipList|e]; [| exact I].
  match goal with |- context [buildServers rest ?config'] =>
    specialize (IH config'); destruct (buildServers rest config') end;
    auto.
Qed.

Lemma buildPrelude_frame c :
  match buildPrelude c with
  | Ok config =>
      HostRules config = [] /\ StaticHosts config = []
      /\ ExternalRules config = ∅ /\ dns.Fake config = None
  | Err _ => True
  | Panic => False
  end.
Proof.
  unfold buildPrelude, buildClientIP.
  destruct (ClientIP c) as [[bytes|domain]|]; simpl; try exact I.
  - pose proof (buildServers_frame (Servers c) (with_ClientIp bytes (initial c))) as H.
    destruct (buildServers _ _); [| exact I | exact H].
    destruct H as (_ & -> & -> & -> & ->). now repeat split.
  - pose proof (buildServers_frame (Servers c) (initial c)) as H.
    destruct (buildServers _ _); [| exact I | exact H].
    destruct H as (_ & -> & -> & -> & ->). now repeat split.
Qed.

Lemma buildHosts_empty order c config :
  Hosts c = ∅ -> buildHosts order c config = Ok config.
Proof. unfold buildHosts. intros ->. now rewrite map_size_empty. Qed.

Lemma buildHosts_run order c config :
  range_order (Hosts c) order -> Hosts c <> ∅ ->
  exists config',
    same_static config config'
    /\ HostRules config' = HostRules config ++ hostItems (Hosts c) order
    /\ buildHosts order c config =
       (mappings ← staticMappings (Hosts c) (sort_Strings order);
        Ok (with_StaticHosts (StaticHosts config' ++ mappings) config')).
Proof.
  intros Horder Hne. unfold buildHosts.
  apply map_size_non_empty_iff in Hne.
  destruct (Nat.ltb_spec 0 (size (Hosts c))) as [_ | ?]; [| lia].
  destruct (rangeHosts_Ok (Hosts c) order [] config) as (config' & -> & Hs & Hr).
  { intros k Hk. now apply (range_order_lookup _ order). }
  exists config'. split; [exact Hs |]. split; [exact Hr |].
  simpl. apply staticHosts_staticMappings.
Qed.

(** The fake settings [Build] emits for a fake configuration. *)
Definition fakeOf (fake : FakeIPConfig) : Config_Fake :=
  {| dns.FakeNet :=
       if String.eqb (FakeNet fake) "" then "224.0.0.0/8" else FakeNet fake;
     dns.FakeRules := kept (FakeRules fake) |}.

Lemma buildFake_Ok c config :
  exists cfg,
    buildFake c config = Ok cfg
    /\ StaticHosts cfg = StaticHosts config
    /\ HostRules cfg = HostRules config
    /\ dns.Fake cfg =
       match Fake c with
       | None => dns.Fake config
       | Some fake => Some (fakeOf fake)
       end.
Proof.
  unfold buildFake. destruct (Fake c) as [fake|].
  - destruct (fakeRulesLoop_Ok (FakeRules fake) [] config)
      as (config' & -> & (_ & _ & _ & Hs & _) & Hr).
    simpl. eexists. split; [reflexivity |]. now repeat split.
  - exists config. now repeat split.
Qed.

(** *** The claims about the pattern compressor *)

(** C1 on the code.  At ["geosite:cn"] the compressor departs from the
    claim: whatever the order in which the prefix table is ranged over, it
    returns ["egeosite.dat:cn"], the tag as written, and not
    ["egeosite.dat:CN"]; while the branch of [Build] for the same key hands
    the loader the tag upper-cased.  The other two examples come out as the
    claim has them, in every order of the table. *)
Theorem compressPattern_geosite_tag_as_written
    (entries : list (string * string)) (addr : Address) :
  entries ≡ₚ prefixMapper ->
  compressPattern_range entries "geosite:cn" = "egeosite.dat:cn"
  /\ compressPattern_range entries "geosite:cn" <> "egeosite.dat:CN"
  /\ hostMappings "geosite:cn" addr
     = match loadGeositeWithAttr "geosite.dat" (ToUpper "cn") with
       | Fail err =>
           Err (Base (newError [VString "invalid geosite settings: ";
                                VString "geosite:cn"]) err)
       | Val domains => Ok (expand addr domains)
       end
  /\ compressPattern_range entries "domain:example.com" = "dexample.com"
  /\ compressPattern_range entries "nodialect.com" = "fnodialect.com".
Proof.
  intros Hperm. rewrite !compressPattern_range_any_order by exact Hperm.
  split; [vm_compute; reflexivity |].
  split; [vm_compute; discriminate |].
  split; [reflexivity |].
  split; vm_compute; reflexivity.
Qed.

(** C10.  [compressPattern] returns a non-empty string (["f"] for the empty
    pattern) whose first byte is one of [d f k r i e]; so the reads
    [pattern[0]] and [pattern[1:]] of [loadExternalRules] are in range and
    it does not panic; and when that byte is not [e], [loadExternalRules]
    returns no error and the configuration as it was. *)
Theorem compressPattern_marker (pattern : string) (c : Config) :
  (exists cmd rest,
     compressPattern pattern = String cmd rest /\ cmd ∈ markers)
  /\ compressPattern "" = "f"
  /\ is_Some (index (compressPattern pattern) 0)
  /\ 1 <= len (compressPattern pattern)
  /\ loadExternalRules (compressPattern pattern) c <> Panic
  /\ (index (compressPattern pattern) 0 <> Some "e"%char ->
      loadExternalRules (compressPattern pattern) c = Ok c).
Proof.
  destruct (compressPattern_head pattern) as (cmd & rest & E & Hin).
  split; [eauto |]. split; [reflexivity |]. rewrite E.
  destruct (loadExternalRules_String cmd rest c) as [Hp Hne].
  split; [simpl; eauto |]. split; [simpl; lia |]. split; [exact Hp |].
  intros H. apply Hne. intros ->. now apply H.
Qed.

(** *** The claims about [DnsConfig.Build] *)

Lemma Split_no_separator arg :
  Contains arg ":" = false -> Split arg ":"%char = [arg].
Proof.
  induction arg as [|a arg IH]; [reflexivity |].
  simpl. unfold HasPrefix. simpl.
  destruct (Ascii.eqb a ":"); simpl; [discriminate |].
  intros Hc. now rewrite (IH Hc).
Qed.

(** A key ["ext:" ++ arg] whose argument has no [":"] stops the second loop. *)
Lemma hostMappings_malformed_ext arg addr :
  Contains arg ":" = false ->
  exists e, hostMappings ("ext:" +:+ arg) addr = Err e.
Proof.
  intros Hc. unfold hostMappings.
  assert (Hext : HasPrefix ("ext:" +:+ arg) "ext:" = true)
    by (apply HasPrefix_spec; now exists arg).
  repeat match goal with
  | |- context [if HasPrefix ("ext:" +:+ arg) ?p then _ else _] =>
      lazymatch p with
      | "ext:" => rewrite Hext
      | _ => let E := fresh "E" in
             destruct (HasPrefix ("ext:" +:+ arg) p) eqn:E;
             [destruct (HasPrefix_comparable _ _ _ Hext E) as [F | F];
              vm_compute in F; discriminate F |]
      end
  end.
  change 4 with (len "ext:"). rewrite str_drop_app, (Split_no_separator _ Hc).
  eauto.
Qed.

(** C3.  When the [Hosts] map has a key ["ext:" ++ arg] whose argument has
    no [":"] (as in ["ext:onlyonepart"]), [Build] returns an error, and with
    it no configuration at all, whatever else the input holds and in
    whatever order the map is ranged over. *)
Theorem Build_malformed_ext_aborts (order : list string) (c : DnsConfig)
    (arg : string) :
  range_order (Hosts c) order ->
  is_Some (Hosts c !! ("ext:" +:+ arg)) ->
  Contains arg ":" = false ->
  exists e, Build order c = Err e.
Proof.
  intros Horder Hkey Hc. rewrite Build_phases.
  pose proof (buildPrelude_frame c) as Hpre.
  destruct (buildPrelude c) as [config|e|]; simpl; [| eauto | contradiction].
  destruct (buildHosts_run order c config Horder) as (config' & _ & _ & ->).
  { intros E. rewrite E, lookup_empty in Hkey. now destruct Hkey. }
  destruct (staticMappings_Err (Hosts c) (sort_Strings order) ("ext:" +:+ arg))
    as [e ->]; simpl; eauto.
  - intros k Hk. rewrite sort_Strings_Permutation in Hk.
    now apply (range_order_lookup _ order).
  - rewrite sort_Strings_Permutation.
    now apply (range_order_lookup (Hosts c)).
  - intros addr. now apply hostMappings_malformed_ext.
Qed.

(** C4.  When the fake-rule list holds one pattern whose external rules load
    and one whose loading fails, and the rest of the configuration builds,
    [Build] succeeds and the fake rules it emits are exactly the compressed
    form of the pattern that loads. *)
Theorem Build_fake_rules_drop_unresolved (order : list string)
    (c : DnsConfig) (fake : FakeIPConfig) (p_ok p_bad : string)
    (cfg0 : Config) :
  Fake c = Some fake ->
  FakeRules fake = [p_ok; p_bad] \/ FakeRules fake = [p_bad; p_ok] ->
  (forall cfg, exists cfg', loadExternalRules (compressPattern p_ok) cfg = Ok cfg') ->
  (forall cfg, exists e, loadExternalRules (compressPattern p_bad) cfg = Err e) ->
  Build order (with_Fake None c) = Ok cfg0 ->
  exists cfg fk,
    Build order c = Ok cfg
    /\ dns.Fake cfg = Some fk
    /\ dns.FakeRules fk = [compressPattern p_ok].
Proof.
  intros Hfake Hrules Hok Hbad Hrest.
  rewrite Build_phases in Hrest |- *.
  change (buildPrelude (with_Fake None c)) with (buildPrelude c) in Hrest.
  destruct (buildPrelude c) as [config|e|]; simpl in *; try discriminate.
  change (buildHosts order (with_Fake None c) config)
    with (buildHosts order c config) in Hrest.
  destruct (buildHosts order c config) as [config'|e|]; simpl in *;
    try discriminate.
  destruct (buildFake_Ok c config') as (cfg & -> & _ & _ & Hf).
  rewrite Hfake in Hf. exists cfg, (fakeOf fake).
  split; [reflexivity |]. split; [exact Hf |].
  assert (Lok : loads (compressPattern p_ok) = true)
    by (apply (loads_true _ cfg0), Hok).
  assert (Lbad : loads (compressPattern p_bad) = false)
    by (apply (loads_false _ cfg0), Hbad).
  unfold fakeOf, kept. simpl.
  destruct Hrules as [-> | ->]; simpl; now rewrite Lok, Lbad.
Qed.

(** C9.  When a fake configuration is present and the rest of the
    configuration builds, [Build] succeeds and the fake network it emits is
    ["224.0.0.0/8"] if the given range string is empty and the given string,
    unchanged, otherwise. *)
Theorem Build_FakeNet_default (order : list string) (c : DnsConfig)
    (fake : FakeIPConfig) (cfg0 : Config) :
  Fake c = Some fake ->
  Build order (with_Fake None c) = Ok cfg0 ->
  exists cfg fk,
    Build order c = Ok cfg
    /\ dns.Fake cfg = Some fk
    /\ (FakeNet fake = "" -> dns.FakeNet fk = "224.0.0.0/8")
    /\ (FakeNet fake <> "" -> dns.FakeNet fk = FakeNet fake).
Proof.
  intros Hfake Hrest.
  rewrite Build_phases in Hrest |- *.
  change (buildPrelude (with_Fake None c)) with (buildPrelude c) in Hrest.
  destruct (buildPrelude c) as [config|e|]; simpl in *; try discriminate.
  change (buildHosts order (with_Fake None c) config)
    with (buildHosts order c config) in Hrest.
  destruct (buildHosts order c config) as [config'|e|]; simpl in *;
    try discriminate.
  destruct (buildFake_Ok c config') as (cfg & -> & _ & _ & Hf).
  rewrite Hfake in Hf. exists cfg, (fakeOf fake).
  split; [reflexivity |]. split; [exact Hf |]. unfold fakeOf. simpl. split.
  - intros ->. reflexivity.
  - intros Hne. apply String.eqb_neq in Hne. now rewrite Hne.
Qed.

(** The two-entry map of C6. *)
Definition twoHosts (addr1 addr2 : Address) : gmap string Address :=
  <["domain:a.com" := addr1]> (<["full:b.com" := addr2]> ∅).

Lemma twoHosts_range_order addr1 addr2 order :
  range_order (twoHosts addr1 addr2) order ->
  order = ["domain:a.com"; "full:b.com"]
  \/ order = ["full:b.com"; "domain:a.com"].
Proof.
  unfold range_order, twoHosts. intros H.
  rewrite map_to_list_insert in H
    by (rewrite lookup_insert_ne by discriminate; apply lookup_empty).
  rewrite map_to_list_insert in H by apply lookup_empty.
  rewrite map_to_list_empty in H. simpl in H. symmetry in H.
  now apply Permutation_length_2_inv in H.
Qed.

Lemma twoHosts_staticMappings addr1 addr2 :
  staticMappings (twoHosts addr1 addr2) ["domain:a.com"; "full:b.com"] =
  Ok [typed DomainMatchingType_Subdomain "a.com" (getHostMapping addr1);
      typed DomainMatchingType_Full "b.com" (getHostMapping addr2)].
Proof.
  unfold twoHosts. cbn [staticMappings].
  rewrite lookup_insert_eq, lookup_insert_ne, lookup_insert_eq
    by discriminate.
  vm_compute. reflexivity.
Qed.

(** C6.  For the map [{"domain:a.com": addr1, "full:b.com": addr2}], in
    whichever order it is ranged over and provided the rest of the
    configuration builds, [Build] succeeds and [StaticHosts] is the Subdomain
    mapping of ["a.com"] to [addr1] followed by the Full mapping of
    ["b.com"] to [addr2], the order of the sorted keys, and nothing else. *)
Theorem Build_static_hosts_sorted (order : list string) (c : DnsConfig)
    (addr1 addr2 : Address) (cfg0 : Config) :
  Hosts c = twoHosts addr1 addr2 ->
  range_order (Hosts c) order ->
  Build order (with_Hosts ∅ c) = Ok cfg0 ->
  exists cfg,
    Build order c = Ok cfg
    /\ StaticHosts cfg =
       [typed DomainMatchingType_Subdomain "a.com" (getHostMapping addr1);
        typed DomainMatchingType_Full "b.com" (getHostMapping addr2)].
Proof.
  intros Hhosts Horder Hrest.
  rewrite Build_phases in Hrest |- *.
  change (buildPrelude (with_Hosts ∅ c)) with (buildPrelude c) in Hrest.
  pose proof (buildPrelude_frame c) as Hpre.
  destruct (buildPrelude c) as [config|e|]; simpl in *; try discriminate.
  destruct Hpre as (_ & Hstatic & _).
  destruct (buildHosts_run order c config Horder)
    as (config' & (_ & _ & _ & Hs & _) & _ & ->).
  { rewrite Hhosts. unfold twoHosts. apply insert_non_empty. }
  assert (Hsorted : sort_Strings order = ["domain:a.com"; "full:b.com"]).
  { rewrite Hhosts in Horder.
    destruct (twoHosts_range_order _ _ _ Horder) as [-> | ->]; reflexivity. }
  rewrite Hsorted, Hhosts, twoHosts_staticMappings. simpl.
  match goal with |- context [buildFake c ?config''] =>
    destruct (buildFake_Ok c config'') as (cfg & -> & Hst & _) end.
  exists cfg. split; [reflexivity |].
  rewrite Hst. simpl. now rewrite Hs, Hstatic.
Qed.

(** *** What the order of the visit decides *)

Lemma String_compare_trans a b c :
  String.compare a b <> Gt -> String.compare b c <> Gt ->
  String.compare a c <> Gt.
Proof.
  revert b c. induction a as [|x a IH]; intros [|y b] [|z c]; simpl;
    try congruence.
  unfold Ascii.compare.
  destruct (N.compare_spec (N_of_ascii x) (N_of_ascii y)) as [Exy|Lxy|Gxy];
    destruct (N.compare_spec (N_of_ascii y) (N_of_ascii z)) as [Eyz|Lyz|Gyz];
    destruct (N.compare_spec (N_of_ascii x) (N_of_ascii z)) as [Exz|Lxz|Gxz];
    try congruence; try lia.
  apply IH.
Qed.

(** The order of [sort.Strings]. *)
Definition str_le (a b : string) : Prop := String.leb a b = true.

Lemma str_le_compare a b : str_le a b <-> String.compare a b <> Gt.
Proof.
  unfold str_le, String.leb. destruct (String.compare a b); split;
    congruence.
Qed.

#[local] Instance str_le_trans : Transitive str_le.
Proof.
  intros a b c. rewrite !str_le_compare. apply String_compare_trans.
Qed.

#[local] Instance str_le_antisymm : AntiSymm (=) str_le.
Proof. intros a b. apply String.leb_antisym. Qed.

Lemma insert_sorted_StronglySorted k l :
  StronglySorted str_le l -> StronglySorted str_le (insert_sorted k l).
Proof.
  induction l as [|x l IH]; intros Hs; simpl.
  - repeat constructor.
  - apply StronglySorted_inv in Hs as [Hl Hx].
    destruct (String.leb k x) eqn:E.
    + constructor; [now constructor |].
      constructor; [exact E |].
      eapply Forall_impl; [exact Hx |]. intros y Hy. now transitivity x.
    + constructor; [now apply IH |].
      rewrite insert_sorted_Permutation. constructor; [| exact Hx].
      destruct (String.leb_total k x) as [F | F]; [congruence | exact F].
Qed.

Lemma sort_Strings_StronglySorted l : StronglySorted str_le (sort_Strings l).
Proof.
  unfold sort_Strings. induction l as [|x l IH]; simpl; [constructor |].
  now apply insert_sorted_StronglySorted.
Qed.

(** [sort.Strings] forgets the order in which the keys were collected. *)
Lemma sort_Strings_any_order l1 l2 :
  l1 ≡ₚ l2 -> sort_Strings l1 = sort_Strings l2.
Proof.
  intros H. apply (StronglySorted_unique str_le);
    try apply sort_Strings_StronglySorted.
  now rewrite !sort_Strings_Permutation.
Qed.

Lemma hostItems_Permutation hosts order1 order2 :
  order1 ≡ₚ order2 -> hostItems hosts order1 ≡ₚ hostItems hosts order2.
Proof.
  induction 1 as [|k l1 l2 _ IH|k1 k2 l|l1 l2 l3 _ IH1 _ IH2]; simpl.
  - reflexivity.
  - destruct (hosts !! k); [now rewrite IH | exact IH].
  - destruct (hosts !! k1), (hosts !! k2); try reflexivity.
    rewrite !app_assoc. apply Permutation_app_tail, Permutation_app_comm.
  - now rewrite IH1.
Qed.

(** Two runs of [Build] on one input that differ in the order of
    [range c.Hosts] fail with the same error or succeed together; when they
    succeed they agree on [StaticHosts] and on the fake settings, and their
    [HostRules] hold the same items, in the order of the respective visit. *)
Lemma Build_range_order order1 order2 c :
  range_order (Hosts c) order1 -> range_order (Hosts c) order2 ->
  match Build order1 c, Build order2 c with
  | Ok cfg1, Ok cfg2 =>
      StaticHosts cfg1 = StaticHosts cfg2
      /\ dns.Fake cfg1 = dns.Fake cfg2
      /\ HostRules cfg1 ≡ₚ HostRules cfg2
      /\ HostRules cfg1 = hostItems (Hosts c) order1
      /\ HostRules cfg2 = hostItems (Hosts c) order2
  | Err e1, Err e2 => e1 = e2
  | _, _ => False
  end.
Proof.
  intros H1 H2. rewrite !Build_phases.
  pose proof (buildPrelude_frame c) as Hpre.
  destruct (buildPrelude c) as [config|e|]; simpl; [| reflexivity | exact Hpre].
  destruct Hpre as (Hr0 & Hs0 & _ & Hf0).
  assert (Hperm : order1 ≡ₚ order2) by (unfold range_order in *; now rewrite H1, H2).
  destruct (decide (Hosts c = ∅)) as [Hempty | Hne].
  - rewrite !buildHosts_empty by exact Hempty. simpl.
    assert (E1 : order1 = []).
    { unfold range_order in H1. rewrite Hempty, map_to_list_empty in H1.
      now apply Permutation_nil_r in H1. }
    assert (E2 : order2 = []).
    { unfold range_order in H2. rewrite Hempty, map_to_list_empty in H2.
      now apply Permutation_nil_r in H2. }
    subst order1 order2.
    destruct (buildFake_Ok c config) as (cfg & -> & Hst & Hr & Hf).
    repeat split; try reflexivity; simpl; congruence.
  - destruct (buildHosts_run order1 c config H1 Hne)
      as (c1 & (_ & _ & _ & Hs1 & Hf1) & Hr1 & ->).
    destruct (buildHosts_run order2 c config H2 Hne)
      as (c2 & (_ & _ & _ & Hs2 & Hf2) & Hr2 & ->).
    rewrite (sort_Strings_any_order order1 order2 Hperm).
    pose proof (hostMappings_not_Panic) as Hnp.
    destruct (staticMappings (Hosts c) (sort_Strings order2))
      as [mappings|e|] eqn:E; simpl; [| reflexivity |].
    + match goal with |- context [buildFake c ?x] =>
        destruct (buildFake_Ok c x) as (cfg1 & -> & Hst1 & Hrr1 & Hff1) end.
      match goal with |- context [buildFake c ?x] =>
        destruct (buildFake_Ok c x) as (cfg2 & -> & Hst2 & Hrr2 & Hff2) end.
      simpl in *. rewrite Hr0 in Hr1, Hr2. simpl in Hr1, Hr2.
      split; [congruence |].
      split; [destruct (Fake c); congruence |].
      split; [| split; congruence].
      rewrite Hrr1, Hrr2, Hr1, Hr2. now apply hostItems_Permutation.
    + exfalso. clear -E H2 Hnp.
      assert (Hkeys : forall k, k ∈ sort_Strings order2 -> is_Some (Hosts c !! k)).
      { intros k Hk. rewrite sort_Strings_Permutation in Hk.
        now apply (range_order_lookup _ order2). }
      induction (sort_Strings order2) as [|d l IH]; [discriminate |].
      simpl in E. destruct (Hkeys d) as [addr Ha]; [left |].
      rewrite Ha in E. specialize (Hnp d addr).
      destruct (hostMappings d addr); simpl in E; try congruence.
      destruct (staticMappings (Hosts c) l); simpl in E; try discriminate.
      apply IH; [reflexivity |]. intros k Hk. apply Hkeys. now right.
Qed.

(** The input on which C5 fails: two unprefixed keys and nothing else. *)
Definition twoPlainHosts : DnsConfig :=
  {| Servers := [];
     Hosts := <["a.com" := IPAddress [Byte.x01; Byte.x01; Byte.x01; Byte.x01]]>
              (<["b.com" := IPAddress [Byte.x02; Byte.x02; Byte.x02; Byte.x02]]> ∅);
     ClientIP := None; Tag := ""; Fake := None |}.

(** C5 fails on the code.  Two runs of [Build] on the same input that range
    over [c.Hosts] in two different orders both succeed and return different
    [HostRules]: the items follow the order of the visit. *)
Theorem Build_HostRules_follow_range_order :
  range_order (Hosts twoPlainHosts) ["a.com"; "b.com"]
  /\ range_order (Hosts twoPlainHosts) ["b.com"; "a.com"]
  /\ exists cfg1 cfg2,
       Build ["a.com"; "b.com"] twoPlainHosts = Ok cfg1
       /\ Build ["b.com"; "a.com"] twoPlainHosts = Ok cfg2
       /\ map Pattern (HostRules cfg1) = ["fa.com"; "fb.com"]
       /\ map Pattern (HostRules cfg2) = ["fb.com"; "fa.com"]
       /\ StaticHosts cfg1 = StaticHosts cfg2
       /\ cfg1 <> cfg2.
Proof.
  split; [| split].
  - unfold range_order. vm_compute. reflexivity.
  - unfold range_order. vm_compute. apply perm_swap.
  - eexists _, _. split; [vm_compute; reflexivity |].
    split; [vm_compute; reflexivity |].
    split; [reflexivity |]. split; [reflexivity |].
    split; [reflexivity |]. discriminate.
Qed.

(** *** The external-rule index *)

(** The entry [loadExternalRules] stores for a resolved list: the compressed
    form of every resolved rule, in the order of the resolver. *)
Definition expansion (domains : list router.Domain) : ConfigPatterns :=
  {| Patterns := map (fun d => typeMapper (router.Type' d) +:+ Value d) domains |}.

(** [indexed cfg pattern]: if [pattern] carries the external marker, the
    index of [cfg] holds, under what follows the marker, the expansion of the
    list that this argument names. *)
Definition indexed (cfg : Config) (pattern : string) : Prop :=
  forall arg, pattern = String "e"%char arg ->
    exists filename country domains,
      Split arg ":"%char = [filename; country]
      /\ loadGeositeWithAttr filename country = Val domains
      /\ ExternalRules cfg !! arg = Some (expansion domains).

Lemma loadExternalRules_Ok_inv pattern c c' :
  loadExternalRules pattern c = Ok c' ->
  exists entry, externalRulesOf pattern = Ok entry /\ c' = store entry c.
Proof.
  rewrite loadExternalRules_store.
  destruct (externalRulesOf pattern) as [entry|e|]; simpl; try discriminate.
  intros [= <-]. eauto.
Qed.

Lemma externalRulesOf_Ok_inv pattern entry :
  externalRulesOf pattern = Ok entry ->
  (entry = None /\ forall arg, pattern <> String "e"%char arg)
  \/ (exists arg filename country domains,
        pattern = String "e"%char arg
        /\ Split arg ":"%char = [filename; country]
        /\ loadGeositeWithAttr filename country = Val domains
        /\ entry = Some (arg, expansion domains)).
Proof.
  unfold externalRulesOf, loadExternalRules.
  destruct pattern as [|cmd rest]; [discriminate |]. cbn [index String.get].
  destruct (Ascii.eqb_spec cmd "e"%char) as [-> | Hne]; cbn [negb].
  - cbn [drop].
    destruct (Split rest ":"%char) as [|filename [|country [|? ?]]] eqn:ES;
      try discriminate.
    destruct (loadGeositeWithAttr filename country) as [domains|e] eqn:EL;
      [| discriminate].
    cbn [ExternalRules with_ExternalRules].
    rewrite insert_empty, map_to_list_singleton. intros [= <-].
    right. exists rest, filename, country, domains. now repeat split.
  - cbn [ExternalRules]. rewrite map_to_list_empty. intros [= <-].
    left. split; [reflexivity |]. intros arg [= E _]. now apply Hne.
Qed.

Lemma store_indexed pattern entry c :
  externalRulesOf pattern = Ok entry ->
  indexed (store entry c) pattern
  /\ (forall q, indexed c q -> indexed (store entry c) q).
Proof.
  intros H. apply externalRulesOf_Ok_inv in H
    as [[-> Hne] | (arg & filename & country & domains & -> & HS & HL & ->)].
  - split; [| intros q Hq; exact Hq]. intros arg E. now destruct (Hne arg).
  - assert (Hnew : indexed (store (Some (arg, expansion domains)) c)
                           (String "e"%char arg)).
    { intros arg' [= <-]. exists filename, country, domains.
      repeat split; [exact HS | exact HL |]. simpl. apply lookup_insert_eq. }
    split; [exact Hnew |]. intros q Hq arg' ->.
    destruct (decide (arg = arg')) as [<- | Hne]; [now apply Hnew |].
    destruct (Hq arg' eq_refl) as (f & t & ds & ? & ? & Hl).
    exists f, t, ds. repeat split; try assumption.
    simpl. now rewrite lookup_insert_ne.
Qed.

Lemma loadExternalRules_indexed pattern c c' :
  loadExternalRules pattern c = Ok c' ->
  indexed c' pattern
  /\ (forall q, indexed c q -> indexed c' q)
  /\ HostRules c' = HostRules c /\ dns.Fake c' = dns.Fake c.
Proof.
  intros H. apply loadExternalRules_Ok_inv in H as (entry & He & ->).
  destruct (store_indexed pattern entry c He) as [H1 H2].
  destruct (store_same_static entry c) as [(_ & _ & _ & _ & Hf) Hr].
  now repeat split.
Qed.

(** Every host rule of [cfg] is indexed. *)
Definition all_indexed (cfg : Config) : Prop :=
  forall item, item ∈ HostRules cfg -> indexed cfg (Pattern item).

Lemma getHostPattern_indexed addr pattern c c' :
  getHostPattern addr pattern c = Ok c' ->
  all_indexed c ->
  all_indexed c'
  /\ (forall q, indexed c q -> indexed c' q)
  /\ dns.Fake c' = dns.Fake c.
Proof.
  unfold getHostPattern. cbn [Pattern typed].
  destruct (loadExternalRules (compressPattern pattern) c) as [c1|e|] eqn:E;
    [| intros [= <-] Hall; repeat split; auto | discriminate].
  intros [= <-] Hall.
  apply loadExternalRules_indexed in E as (Hnew & Hold & Hr & Hf).
  split; [| split; [exact Hold | exact Hf]].
  intros item Hin. cbn [HostRules with_HostRules] in Hin.
  apply elem_of_app in Hin as [Hin | Hin].
  - rewrite Hr in Hin. apply (Hold _ (Hall item Hin)).
  - apply list_elem_of_singleton in Hin as ->. exact Hnew.
Qed.

Lemma rangeHosts_indexed hosts order domains config domains' config' :
  rangeHosts hosts order domains config = Ok (domains', config') ->
  all_indexed config ->
  all_indexed config'
  /\ (forall q, indexed config q -> indexed config' q)
  /\ dns.Fake config' = dns.Fake config.
Proof.
  revert domains config.
  induction order as [|pattern rest IH]; intros domains config; simpl.
  - intros [= _ <-] Hall. repeat split; auto.
  - destruct (hosts !! pattern) as [address|]; [| apply IH].
    destruct (getHostPattern address pattern config) as [c1|e|] eqn:E;
      simpl; try discriminate.
    intros Hrest Hall.
    destruct (getHostPattern_indexed _ _ _ _ E Hall) as (Hall1 & Hold1 & Hf1).
    destruct (IH _ _ Hrest Hall1) as (Hall2 & Hold2 & Hf2).
    split; [exact Hall2 |]. split; [auto | congruence].
Qed.

Lemma fakeRulesLoop_indexed patterns fakeRules config fakeRules' config' :
  fakeRulesLoop patterns fakeRules config = Ok (fakeRules', config') ->
  (forall p, p ∈ fakeRules -> indexed config p) ->
  (forall p, p ∈ fakeRules' -> indexed config' p)
  /\ (forall q, indexed config q -> indexed config' q)
  /\ HostRules config' = HostRules config.
Proof.
  revert fakeRules config.
  induction patterns as [|pattern rest IH]; intros fakeRules config; simpl.
  - intros [= <- <-] Hacc. repeat split; auto.
  - destruct (loadExternalRules (compressPattern pattern) config)
      as [c1|e|] eqn:E; [| apply IH | discriminate].
    intros Hrest Hacc.
    apply loadExternalRules_indexed in E as (Hnew & Hold & Hr & _).
    destruct (IH _ _ Hrest) as (Hacc' & Hold' & Hr').
    { intros p Hp. apply elem_of_app in Hp as [Hp | Hp]; [auto |].
      apply list_elem_of_singleton in Hp as ->. exact Hnew. }
    split; [exact Hacc' |]. split; [auto | congruence].
Qed.

(** C7.  The key under which [loadExternalRules] stores the expansion of a
    resolved list is what follows the marker [e] in the compressed pattern;
    and in the configuration [Build] returns, every host rule and every fake
    rule that carries the marker finds, under what follows it, the ordered
    output of the resolver in compressed form. *)
Theorem external_rules_keyed_by_compressed_argument :
  (forall pattern arg c c',
     compressPattern pattern = String "e"%char arg ->
     loadExternalRules (compressPattern pattern) c = Ok c' ->
     exists filename country domains,
       Split arg ":"%char = [filename; country]
       /\ loadGeositeWithAttr filename country = Val domains
       /\ ExternalRules c' !! arg = Some (expansion domains)
       /\ forall k, k <> arg -> ExternalRules c' !! k = ExternalRules c !! k)
  /\ (forall order c cfg,
        Build order c = Ok cfg ->
        (forall item, item ∈ HostRules cfg -> indexed cfg (Pattern item))
        /\ (forall fk p, dns.Fake cfg = Some fk -> p ∈ dns.FakeRules fk ->
                        indexed cfg p)).
Proof.
  split.
  - intros pattern arg c c' E H. rewrite E in H.
    apply loadExternalRules_Ok_inv in H as (entry & He & ->).
    apply externalRulesOf_Ok_inv in He
      as [[_ Hne] | (arg' & filename & country & domains & [= <-] & HS & HL & ->)].
    + now destruct (Hne arg).
    + exists filename, country, domains. repeat split; try assumption.
      * simpl. apply lookup_insert_eq.
      * intros k Hk. simpl. now rewrite lookup_insert_ne.
  - intros order c cfg. rewrite Build_phases.
    pose proof (buildPrelude_frame c) as Hpre.
    destruct (buildPrelude c) as [config|e|]; simpl; try discriminate.
    destruct Hpre as (Hr0 & _ & _ & Hf0).
    assert (Hall0 : all_indexed config)
      by (intros item Hin; rewrite Hr0 in Hin; inversion Hin).
    assert (Hhosts : forall config1, buildHosts order c config = Ok config1 ->
              all_indexed config1 /\ dns.Fake config1 = None).
    { unfold buildHosts. intros config1.
      destruct (0 <? size (Hosts c))%nat; [| intros [= <-]; split; assumption].
      destruct (rangeHosts (Hosts c) order [] config) as [[ds c1]|e|] eqn:E;
        simpl; try discriminate.
      destruct (rangeHosts_indexed _ _ _ _ _ _ E Hall0) as (Hall1 & _ & Hf1).
      rewrite staticHosts_staticMappings.
      destruct (staticMappings _ _) as [mappings|e|]; simpl; try discriminate.
      intros [= <-]. split; [exact Hall1 | simpl; congruence]. }
    destruct (buildHosts order c config) as [config1|e|]; simpl;
      try discriminate.
    destruct (Hhosts config1 eq_refl) as [Hall1 Hf1].
    unfold buildFake. destruct (Fake c) as [fake|].
    + destruct (fakeRulesLoop (FakeRules fake) [] config1)
        as [[fakeRules c2]|e|] eqn:E; simpl; try discriminate.
      destruct (fakeRulesLoop_indexed _ _ _ _ _ E) as (Hfr & Hold & Hr).
      { intros p Hp. inversion Hp. }
      intros [= <-]. split.
      * intros item Hin. simpl in Hin. rewrite Hr in Hin.
        apply (Hold _ (Hall1 item Hin)).
      * intros fk p [= <-] Hp. apply (Hfr _ Hp).
    + intros [= <-]. split; [exact Hall1 |].
      intros fk p Hfk. congruence.
Qed.

(** *** Further properties: the dialects *)

(** Decides the prefix tests of [hostMappings] on a key that is known, by
    [Hp], to start with one of the prefixes. *)
Ltac prefix_chain key Hp :=
  repeat match goal with
  | |- context [if HasPrefix key ?p then _ else _] =>
      first
        [ rewrite Hp
        | let E := fresh "E" in
          destruct (HasPrefix key p) eqn:E;
          [destruct (HasPrefix_comparable _ _ _ Hp E) as [F | F];
           vm_compute in F; discriminate F |] ]
  end.

(** Membership in a table that is written out. *)
Ltac in_table :=
  unfold prefixMapper;
  repeat first [apply list_elem_of_here | apply list_elem_of_further].

(** The prefix under which a rule of each kind is written. *)
Definition dialectPrefix (t : Domain_Type) : string :=
  match t with
  | Domain_Full => "full:"
  | Domain_Domain => "domain:"
  | Domain_Plain => "keyword:"
  | Domain_Regex => "regexp:"
  end.

(** The four direct dialects are treated alike everywhere: the compressor
    codes a prefixed value with the letter [typeMapper] gives a resolved rule
    of that kind, the chain of [Build] turns it into one mapping of the kind
    [typeMap] gives that rule, with the value as pattern, and the two tables
    of kinds, [typeMap] and [toDomainMatchingType], agree. *)
Theorem direct_dialects_consistent (t : Domain_Type) (value : string)
    (addr : Address) :
  compressPattern (dialectPrefix t +:+ value) = typeMapper t +:+ value
  /\ hostMappings (dialectPrefix t +:+ value) addr
     = Ok [typed (typeMap t) value (getHostMapping addr)]
  /\ typeMap t = toDomainMatchingType t.
Proof.
  split; [| split].
  - apply compressPattern_prefixed.
    destruct t; simpl; in_table.
  - assert (Hp : HasPrefix (dialectPrefix t +:+ value) (dialectPrefix t) = true)
      by (apply HasPrefix_spec; now exists value).
    unfold hostMappings.
    destruct t; simpl dialectPrefix in *;
      match goal with |- context [HasPrefix ?k _] => prefix_chain k Hp end;
      reflexivity.
  - destruct t; reflexivity.
Qed.

(** Two spellings, one code: [geosite:TAG] compresses to what
    [ext:geosite.dat:TAG] compresses to, and a pattern with no prefix of the
    table compresses to what [full:] followed by it compresses to. *)
Theorem compressPattern_shorthands (tag pattern : string) :
  compressPattern ("geosite:" +:+ tag)
  = compressPattern ("ext:geosite.dat:" +:+ tag)
  /\ ((forall prefix cmd, (prefix, cmd) ∈ prefixMapper ->
                          HasPrefix pattern prefix = false) ->
      compressPattern pattern = compressPattern ("full:" +:+ pattern)).
Proof.
  split.
  - rewrite (compressPattern_prefixed "geosite:" "egeosite.dat:" tag)
      by in_table.
    change ("ext:geosite.dat:" +:+ tag) with ("ext:" +:+ ("geosite.dat:" +:+ tag)).
    rewrite (compressPattern_prefixed "ext:" "e")
      by in_table.
    reflexivity.
  - intros Hnone.
    rewrite (compressPattern_prefixed "full:" "f" pattern)
      by in_table.
    destruct (compressPattern_cases pattern)
      as [[_ ->] | (prefix & cmd & Hin & Hhit & _)]; [reflexivity |].
    rewrite (Hnone prefix cmd Hin) in Hhit. discriminate.
Qed.

(** A [geoip:] key of the [Hosts] map is coded [i] by the compressor, but
    the chain of [Build] has no branch for it: its static mapping is a Full
    match over the whole key, prefix included. *)
Theorem geoip_host_key (rest : string) (addr : Address) :
  compressPattern ("geoip:" +:+ rest) = "i" +:+ rest
  /\ hostMappings ("geoip:" +:+ rest) addr
     = Ok [typed DomainMatchingType_Full ("geoip:" +:+ rest)
                 (getHostMapping addr)].
Proof.
  split.
  - apply compressPattern_prefixed. in_table.
  - assert (Hp : HasPrefix ("geoip:" +:+ rest) "geoip:" = true)
      by (apply HasPrefix_spec; now exists rest).
    unfold hostMappings.
    repeat match goal with
    | |- context [if HasPrefix ("geoip:" +:+ rest) ?p then _ else _] =>
        let E := fresh "E" in
        destruct (HasPrefix ("geoip:" +:+ rest) p) eqn:E;
        [destruct (HasPrefix_comparable _ _ _ Hp E) as [F | F];
         vm_compute in F; discriminate F |]
    end.
    reflexivity.
Qed.

(** *** Further properties: the external-rule index as a fold *)

(** The entry, if any, that [loadExternalRules] stores for a pattern. *)
Definition entryOf (pattern : string) : option (string * ConfigPatterns) :=
  match externalRulesOf pattern with
  | Ok entry => entry
  | _ => None
  end.

(** The write of [loadExternalRules] on the index alone. *)
Definition storeMap (entry : option (string * ConfigPatterns))
    (m : gmap string ConfigPatterns) : gmap string ConfigPatterns :=
  match entry with
  | None => m
  | Some (arg, externRules) => <[arg := externRules]> m
  end.

(** The index after [loadExternalRules] ran on each pattern in turn. *)
Definition storeAll (patterns : list string) (m : gmap string ConfigPatterns)
  : gmap string ConfigPatterns :=
  foldl (fun m pattern => storeMap (entryOf pattern) m) m patterns.

Lemma Config_eta c :
  with_HostRules (HostRules c) (with_ExternalRules (ExternalRules c) c) = c.
Proof. now destruct c. Qed.

Lemma loadExternalRules_entryOf pattern c :
  match loadExternalRules pattern c with
  | Ok c' =>
      c' = with_ExternalRules (storeMap (entryOf pattern) (ExternalRules c)) c
  | Err _ => entryOf pattern = None
  | Panic => True
  end.
Proof.
  rewrite loadExternalRules_store. unfold entryOf.
  destruct (externalRulesOf pattern) as [[[arg rules]|]|e|]; simpl; auto.
  now destruct c.
Qed.

Lemma loadExternalRules_Ok_iff pattern c c' :
  loadExternalRules pattern c = Ok c' <->
  (exists entry, externalRulesOf pattern = Ok entry)
  /\ c' = with_ExternalRules (storeMap (entryOf pattern) (ExternalRules c)) c.
Proof.
  pose proof (loadExternalRules_entryOf pattern c) as H.
  rewrite loadExternalRules_store in *. unfold entryOf in *.
  destruct (externalRulesOf pattern) as [entry|e|]; simpl in *; split.
  - intros [= <-]. split; [eauto | exact H].
  - intros [_ ->]. now rewrite H.
  - discriminate.
  - intros [[? ?] _]. discriminate.
  - discriminate.
  - intros [[? ?] _]. discriminate.
Qed.

Lemma entryOf_key pattern arg rules :
  entryOf pattern = Some (arg, rules) -> pattern = String "e"%char arg.
Proof.
  unfold entryOf.
  destruct (externalRulesOf pattern) as [entry|e|] eqn:E; try discriminate.
  intros ->.
  apply externalRulesOf_Ok_inv in E
    as [[? _] | (arg' & _ & _ & _ & -> & _ & _ & [= <- _])];
    [discriminate | reflexivity].
Qed.

Lemma storeMap_twice pattern m :
  storeMap (entryOf pattern) (storeMap (entryOf pattern) m)
  = storeMap (entryOf pattern) m.
Proof.
  destruct (entryOf pattern) as [[arg rules]|]; simpl; [| reflexivity].
  apply insert_insert_eq.
Qed.

Lemma storeMap_comm p q m :
  storeMap (entryOf p) (storeMap (entryOf q) m)
  = storeMap (entryOf q) (storeMap (entryOf p) m).
Proof.
  destruct (entryOf p) as [[k1 v1]|] eqn:Ep; [| reflexivity].
  destruct (entryOf q) as [[k2 v2]|] eqn:Eq; [| reflexivity].
  simpl. destruct (decide (k1 = k2)) as [<- | Hne].
  - apply entryOf_key in Ep as Hp. apply entryOf_key in Eq as Hq.
    subst p q. rewrite Ep in Eq. now injection Eq as <-.
  - now apply insert_insert_ne.
Qed.

Lemma storeAll_Permutation ps1 ps2 m :
  ps1 ≡ₚ ps2 -> storeAll ps1 m = storeAll ps2 m.
Proof.
  unfold storeAll. intros H. revert m.
  induction H as [|p l1 l2 _ IH|p q l|l1 l2 l3 _ IH1 _ IH2]; intros m; simpl.
  - reflexivity.
  - apply IH.
  - now rewrite storeMap_comm.
  - now rewrite IH1.
Qed.

(** Every entry of the index is the one its key determines. *)
Definition keyed (m : gmap string ConfigPatterns) : Prop :=
  forall k v, m !! k = Some v -> entryOf (String "e"%char k) = Some (k, v).

Lemma storeMap_keyed pattern m :
  keyed m ->
  keyed (storeMap (entryOf pattern) m) /\ m ⊆ storeMap (entryOf pattern) m.
Proof.
  intros Hm. destruct (entryOf pattern) as [[arg rules]|] eqn:E; simpl;
    [| split; [exact Hm | reflexivity]].
  apply entryOf_key in E as Hp. subst pattern. split.
  - intros k v. destruct (decide (arg = k)) as [<- | Hne].
    + rewrite lookup_insert_eq. now intros [= <-].
    + rewrite lookup_insert_ne by exact Hne. apply Hm.
  - apply map_subseteq_spec. intros k v Hk.
    destruct (decide (arg = k)) as [<- | Hne].
    + rewrite lookup_insert_eq. apply Hm in Hk. congruence.
    + now rewrite lookup_insert_ne.
Qed.

Lemma storeAll_keyed patterns m :
  keyed m -> keyed (storeAll patterns m) /\ m ⊆ storeAll patterns m.
Proof.
  unfold storeAll. revert m.
  induction patterns as [|p rest IH]; intros m Hm; simpl;
    [split; [exact Hm | reflexivity] |].
  destruct (storeMap_keyed p m Hm) as [Hk Hsub].
  destruct (IH _ Hk) as [Hk' Hsub']. split; [exact Hk' |].
  now transitivity (storeMap (entryOf p) m).
Qed.

Lemma getHostPattern_spec addr pattern c :
  getHostPattern addr pattern c =
  Ok (with_HostRules
        (HostRules c ++
         (if loads (compressPattern pattern) then [hostItem addr pattern]
          else []))
        (with_ExternalRules
           (storeMap (entryOf (compressPattern pattern)) (ExternalRules c)) c)).
Proof.
  unfold getHostPattern, loads, entryOf. cbn [Pattern typed].
  rewrite loadExternalRules_store.
  pose proof (externalRulesOf_compressPattern pattern) as Hp.
  destruct (externalRulesOf (compressPattern pattern)) as [[[arg rules]|]|e|];
    simpl; [reflexivity | reflexivity | | congruence].
  rewrite app_nil_r. now rewrite Config_eta.
Qed.

Lemma rangeHosts_spec hosts order domains config :
  (forall k, k ∈ order -> is_Some (hosts !! k)) ->
  rangeHosts hosts order domains config =
  Ok (domains ++ order,
      with_HostRules (HostRules config ++ hostItems hosts order)
        (with_ExternalRules
           (storeAll (map compressPattern order) (ExternalRules config))
           config)).
Proof.
  revert domains config.
  induction order as [|pattern rest IH]; intros domains config Hkeys.
  - simpl. rewrite !app_nil_r. unfold storeAll. simpl.
    now rewrite Config_eta.
  - simpl. destruct (Hkeys pattern) as [address Hl]; [left |]. rewrite Hl.
    rewrite getHostPattern_spec. simpl.
    rewrite IH by (intros k Hk; apply Hkeys; now right).
    simpl. rewrite <- !app_assoc. reflexivity.
Qed.

Lemma fakeRulesLoop_spec patterns fakeRules config :
  fakeRulesLoop patterns fakeRules config =
  Ok (fakeRules ++ kept patterns,
      with_ExternalRules
        (storeAll (map compressPattern patterns) (ExternalRules config))
        config).
Proof.
  revert fakeRules config.
  induction patterns as [|pattern rest IH]; intros fakeRules config.
  - unfold kept, storeAll. simpl. rewrite app_nil_r. now destruct config.
  - unfold kept. simpl. unfold loads at 1. unfold storeAll. simpl.
    unfold entryOf at 2. rewrite loadExternalRules_store.
    pose proof (externalRulesOf_compressPattern pattern) as Hp.
    destruct (externalRulesOf (compressPattern pattern)) as [[[arg rules]|]|e|];
      simpl; try congruence; rewrite IH; simpl;
      rewrite <- ?app_assoc; try reflexivity.
    all: now destruct config.
Qed.

Lemma buildFake_spec c config :
  buildFake c config =
  Ok match Fake c with
     | None => config
     | Some fake =>
         dns.with_Fake (Some (fakeOf fake))
           (with_ExternalRules
              (storeAll (map compressPattern (FakeRules fake))
                        (ExternalRules config))
              config)
     end.
Proof.
  unfold buildFake. destruct (Fake c) as [fake|]; [| reflexivity].
  now rewrite fakeRulesLoop_spec.
Qed.

Lemma staticMappings_not_Panic hosts domains :
  (forall k, k ∈ domains -> is_Some (hosts !! k)) ->
  staticMappings hosts domains <> Panic.
Proof.
  induction domains as [|d l IH]; intros Hkeys; simpl; [discriminate |].
  destruct (Hkeys d) as [addr ->]; [left |].
  pose proof (hostMappings_not_Panic d addr) as Hnp.
  destruct (hostMappings d addr); simpl; [| discriminate | congruence].
  assert (Hl : staticMappings hosts l <> Panic)
    by (apply IH; intros k Hk; apply Hkeys; now right).
  destruct (staticMappings hosts l); simpl; congruence.
Qed.

Lemma buildHosts_spec order c config :
  range_order (Hosts c) order -> Hosts c <> ∅ ->
  buildHosts order c config =
  (mappings ← staticMappings (Hosts c) (sort_Strings order);
   Ok (with_StaticHosts (StaticHosts config ++ mappings)
         (with_HostRules (HostRules config ++ hostItems (Hosts c) order)
            (with_ExternalRules
               (storeAll (map compressPattern order) (ExternalRules config))
               config)))).
Proof.
  intros Horder Hne. unfold buildHosts.
  apply map_size_non_empty_iff in Hne.
  destruct (Nat.ltb_spec 0 (size (Hosts c))) as [_ | ?]; [| lia].
  rewrite rangeHosts_spec
    by (intros k Hk; now apply (range_order_lookup _ order)).
  simpl. rewrite staticHosts_staticMappings. reflexivity.
Qed.

Lemma buildHosts_not_Panic order c config :
  range_order (Hosts c) order -> buildHosts order c config <> Panic.
Proof.
  intros Horder. destruct (decide (Hosts c = ∅)) as [E | Hne].
  - now rewrite buildHosts_empty.
  - rewrite buildHosts_spec by assumption.
    assert (Hnp : staticMappings (Hosts c) (sort_Strings order) <> Panic).
    { apply staticMappings_not_Panic. intros k Hk.
      rewrite sort_Strings_Permutation in Hk.
      now apply (range_order_lookup _ order). }
    destruct (staticMappings (Hosts c) (sort_Strings order)); simpl;
      congruence.
Qed.

Lemma range_order_empty order (c : DnsConfig) :
  range_order (Hosts c) order -> Hosts c = ∅ -> order = [].
Proof.
  unfold range_order. intros H E. rewrite E, map_to_list_empty in H.
  now apply Permutation_nil_r in H.
Qed.

(** Loading the external rules of a pattern a second time changes nothing,
    and the external rules of two patterns can be loaded in either order:
    the configuration that results is the same. *)
Theorem loadExternalRules_idempotent_commutes (p q : string)
    (c c1 c2 : Config) :
  loadExternalRules p c = Ok c1 ->
  loadExternalRules q c1 = Ok c2 ->
  loadExternalRules p c1 = Ok c1
  /\ exists c1', loadExternalRules q c = Ok c1'
                 /\ loadExternalRules p c1' = Ok c2.
Proof.
  intros Hp Hq.
  apply loadExternalRules_Ok_iff in Hp as [Ep ->].
  apply loadExternalRules_Ok_iff in Hq as [Eq ->].
  cbn [ExternalRules with_ExternalRules]. split.
  - apply loadExternalRules_Ok_iff. split; [exact Ep |].
    cbn [ExternalRules with_ExternalRules]. now rewrite storeMap_twice.
  - eexists. split; [apply loadExternalRules_Ok_iff; split; [exact Eq | reflexivity] |].
    apply loadExternalRules_Ok_iff. split; [exact Ep |].
    cbn [ExternalRules with_ExternalRules]. now rewrite storeMap_comm.
Qed.

(** Two runs of [Build] on one input, whatever the orders in which they
    range over [c.Hosts], fail with the same error or succeed together, and
    neither panics.  When they succeed the two configurations are equal in
    every field but [HostRules], whose items are the same but follow the
    order of the respective visit. *)
Theorem Build_deterministic_up_to_HostRules_order (order1 order2 : list string)
    (c : DnsConfig) :
  range_order (Hosts c) order1 -> range_order (Hosts c) order2 ->
  match Build order1 c, Build order2 c with
  | Ok cfg1, Ok cfg2 =>
      with_HostRules [] cfg1 = with_HostRules [] cfg2
      /\ HostRules cfg1 ≡ₚ HostRules cfg2
  | Err e1, Err e2 => e1 = e2
  | _, _ => False
  end.
Proof.
  intros H1 H2. rewrite !Build_phases.
  pose proof (buildPrelude_frame c) as Hpre.
  destruct (buildPrelude c) as [config|e|]; simpl; [| reflexivity | exact Hpre].
  assert (Hperm : order1 ≡ₚ order2)
    by (unfold range_order in *; now rewrite H1, H2).
  destruct (decide (Hosts c = ∅)) as [Hempty | Hne].
  - rewrite !buildHosts_empty by exact Hempty. simpl.
    rewrite buildFake_spec. split; reflexivity.
  - rewrite (buildHosts_spec order1), (buildHosts_spec order2) by assumption.
    rewrite (sort_Strings_any_order order1 order2 Hperm).
    assert (Hnp : staticMappings (Hosts c) (sort_Strings order2) <> Panic).
    { apply staticMappings_not_Panic. intros k Hk.
      rewrite sort_Strings_Permutation in Hk.
      now apply (range_order_lookup _ order2). }
    destruct (staticMappings (Hosts c) (sort_Strings order2))
      as [mappings|e|]; simpl; [| reflexivity | congruence].
    rewrite !buildFake_spec.
    assert (Hmap : map compressPattern order1 ≡ₚ map compressPattern order2)
      by now apply Permutation_map.
    assert (Hitems : hostItems (Hosts c) order1 ≡ₚ hostItems (Hosts c) order2)
      by now apply hostItems_Permutation.
    destruct (Fake c) as [fake|]; simpl;
      rewrite (storeAll_Permutation _ _ _ Hmap);
      (split; [reflexivity | now rewrite Hitems]).
Qed.

(** The index reads of [Build] stay in range.  On a configuration as the
    records above hold it (every target of [Hosts] and every entry of
    [Servers] present, every parsed rule of one of the four kinds), the
    bytes [pattern[0]] and [pattern[1:]] that [loadExternalRules] reads
    exist for the compressed form of every key and of every fake rule, every
    key of the sorted list is found in [c.Hosts], and so neither an index out
    of range nor the nil target of a missing key stops [Build]: it returns.
    A nil target or server and a rule of an unknown kind, on which the Go
    code does panic, are no values of these records and are not covered. *)
Theorem Build_index_reads_in_range (order : list string) (c : DnsConfig) :
  range_order (Hosts c) order ->
  (forall k, is_Some (Hosts c !! k) ->
             is_Some (index (compressPattern k) 0)
             /\ 1 <= len (compressPattern k))
  /\ (forall fake pattern,
        Fake c = Some fake -> pattern ∈ FakeRules fake ->
        is_Some (index (compressPattern pattern) 0)
        /\ 1 <= len (compressPattern pattern))
  /\ (forall k, k ∈ sort_Strings order -> is_Some (Hosts c !! k))
  /\ Build order c <> Panic.
Proof.
  intros H.
  assert (Hread : forall pattern,
            is_Some (index (compressPattern pattern) 0)
            /\ 1 <= len (compressPattern pattern)).
  { intros pattern.
    destruct (compressPattern_head pattern) as (cmd & rest & -> & _).
    split; [simpl; eauto | simpl; lia]. }
  split; [intros k _; apply Hread |].
  split; [intros fake pattern _ _; apply Hread |].
  split.
  { intros k Hk. rewrite sort_Strings_Permutation in Hk.
    now apply (range_order_lookup _ order). }
  rewrite Build_phases.
  pose proof (buildPrelude_frame c) as Hpre.
  destruct (buildPrelude c) as [config|e|]; simpl;
    [| discriminate | contradiction].
  pose proof (buildHosts_not_Panic order c config H) as Hh.
  destruct (buildHosts order c config) as [config'|e|]; simpl;
    [| discriminate | congruence].
  rewrite buildFake_spec. discriminate.
Qed.

(** *** Further properties: fatal and tolerated failures *)

Lemma Build_fake_after order c :
  Build order c = cfg0 ← Build order (with_Fake None c); buildFake c cfg0.
Proof.
  rewrite !Build_phases.
  change (buildPrelude (with_Fake None c)) with (buildPrelude c).
  destruct (buildPrelude c) as [config|e|]; simpl; try reflexivity.
  change (buildHosts order (with_Fake None c) config)
    with (buildHosts order c config).
  destruct (buildHosts order c config) as [config'|e|]; reflexivity.
Qed.

Lemma Build_without_fake_keyed order c cfg0 :
  range_order (Hosts c) order ->
  Build order (with_Fake None c) = Ok cfg0 ->
  keyed (ExternalRules cfg0) /\ dns.Fake cfg0 = None.
Proof.
  intros Horder. rewrite Build_phases.
  change (buildPrelude (with_Fake None c)) with (buildPrelude c).
  pose proof (buildPrelude_frame c) as Hpre.
  destruct (buildPrelude c) as [config|e|]; simpl; try discriminate.
  destruct Hpre as (_ & _ & Hx & Hf).
  change (buildHosts order (with_Fake None c) config)
    with (buildHosts order c config).
  assert (Hempty : keyed (ExternalRules config))
    by (rewrite Hx; intros k v Hk; now rewrite lookup_empty in Hk).
  destruct (decide (Hosts c = ∅)) as [E | Hne].
  - rewrite buildHosts_empty by exact E. simpl. intros [= <-]. now split.
  - rewrite buildHosts_spec by assumption.
    destruct (staticMappings _ _) as [mappings|e|]; simpl; try discriminate.
    intros [= <-]. simpl. split; [| exact Hf].
    now apply storeAll_keyed.
Qed.

Lemma Build_without_fake_not_Panic order c :
  range_order (Hosts c) order -> Build order (with_Fake None c) <> Panic.
Proof.
  intros Horder. rewrite Build_phases.
  change (buildPrelude (with_Fake None c)) with (buildPrelude c).
  pose proof (buildPrelude_frame c) as Hpre.
  destruct (buildPrelude c) as [config|e|]; simpl;
    [| discriminate | contradiction].
  change (buildHosts order (with_Fake None c) config)
    with (buildHosts order c config).
  pose proof (buildHosts_not_Panic order c config Horder) as Hh.
  destruct (buildHosts order c config); simpl;
    [unfold buildFake; simpl; discriminate | discriminate | congruence].
Qed.

(** The fake settings never decide whether [Build] fails: with them the
    build fails with the very error it fails with when they are left out,
    and otherwise succeeds with a configuration that differs only in the fake
    settings and in the entries the fake rules add to the external-rule
    index; no entry loaded for the hosts is changed or lost. *)
Theorem Build_fake_never_fatal (order : list string) (c : DnsConfig) :
  range_order (Hosts c) order ->
  match Build order (with_Fake None c), Build order c with
  | Ok cfg0, Ok cfg =>
      dns.Tag cfg = dns.Tag cfg0 /\ ClientIp cfg = ClientIp cfg0
      /\ NameServer_ cfg = NameServer_ cfg0
      /\ HostRules cfg = HostRules cfg0
      /\ StaticHosts cfg = StaticHosts cfg0
      /\ ExternalRules cfg0 ⊆ ExternalRules cfg
  | Err e0, Err e => e0 = e
  | _, _ => False
  end.
Proof.
  intros Horder. rewrite (Build_fake_after order c).
  pose proof (Build_without_fake_not_Panic order c Horder) as Hnp.
  pose proof (Build_without_fake_keyed order c) as Hk.
  destruct (Build order (with_Fake None c)) as [cfg0|e|]; simpl;
    [| reflexivity | congruence].
  destruct (Hk cfg0 Horder eq_refl) as [Hkeyed _].
  rewrite buildFake_spec.
  destruct (Fake c) as [fake|]; simpl; repeat split; try reflexivity.
  now apply storeAll_keyed.
Qed.

Lemma List_filter_sublist {A} (f : A -> bool) (l : list A) :
  List.filter f l `sublist_of` l.
Proof.
  induction l as [|x l IH]; simpl; [constructor |].
  destruct (f x); now constructor.
Qed.

(** The fake rules [Build] emits are compressed forms of the patterns given,
    in the order given, none twice unless given twice; and a compressed
    pattern is emitted exactly when its external rules load, which they
    always do for a pattern without the external marker. *)
Theorem Build_fake_rules_are_the_loadable_ones (order : list string)
    (c : DnsConfig) (fake : FakeIPConfig) (cfg : Config) :
  Fake c = Some fake ->
  Build order c = Ok cfg ->
  exists fk,
    dns.Fake cfg = Some fk
    /\ dns.FakeRules fk `sublist_of` map compressPattern (FakeRules fake)
    /\ (forall p, p ∈ dns.FakeRules fk <->
                  p ∈ map compressPattern (FakeRules fake)
                  /\ forall cfg0, exists cfg1, loadExternalRules p cfg0 = Ok cfg1)
    /\ (forall pattern,
          pattern ∈ FakeRules fake ->
          index (compressPattern pattern) 0 <> Some "e"%char ->
          compressPattern pattern ∈ dns.FakeRules fk).
Proof.
  intros Hfake. rewrite Build_fake_after.
  destruct (Build order (with_Fake None c)) as [cfg0|e|]; simpl;
    try discriminate.
  rewrite buildFake_spec, Hfake. intros [= <-].
  exists (fakeOf fake). split; [reflexivity |]. simpl. unfold kept.
  split; [apply List_filter_sublist |].
  assert (Hiff : forall p,
            p ∈ List.filter loads (map compressPattern (FakeRules fake)) <->
            p ∈ map compressPattern (FakeRules fake)
            /\ forall cfg0, exists cfg1, loadExternalRules p cfg0 = Ok cfg1).
  { intros p. rewrite !list_elem_of_In, filter_In. split.
    - intros [Hin Hl]. split; [exact Hin |]. intros cfgA.
      now apply loads_true.
    - intros [Hin Hl]. split; [exact Hin |].
      apply (loads_true p cfg0). apply Hl. }
  split; [exact Hiff |].
  intros pattern Hin Hne. apply Hiff. split.
  - apply list_elem_of_fmap. now exists pattern.
  - intros cfg1. exists cfg1.
    destruct (compressPattern_head pattern) as (cmd & rest & E & _).
    rewrite E in *. apply loadExternalRules_String.
    intros ->. now apply Hne.
Qed.


Lemma Split_app_separator file rest :
  Contains file ":" = false ->
  Split (file +:+ String ":"%char rest) ":"%char = file :: Split rest ":"%char.
Proof.
  induction file as [|a file IH]; [reflexivity |].
  rewrite str_app_cons. simpl. unfold HasPrefix. simpl.
  destruct (Ascii.eqb a ":"); simpl; [discriminate |].
  intros Hc. now rewrite (IH Hc).
Qed.

Lemma Split_file_tag file tag :
  Contains file ":" = false -> Contains tag ":" = false ->
  Split (file +:+ (":" +:+ tag)) ":"%char = [file; tag].
Proof.
  intros Hf Ht. change (":" +:+ tag) with (String ":"%char tag).
  now rewrite (Split_app_separator _ _ Hf), (Split_no_separator _ Ht).
Qed.


(** A key whose mappings cannot be produced stops the second loop, wherever
    it stands in the sorted list. *)
Lemma Build_failing_key_aborts order c bad :
  range_order (Hosts c) order ->
  is_Some (Hosts c !! bad) ->
  (forall addr, exists e, hostMappings bad addr = Err e) ->
  exists e, Build order c = Err e.
Proof.
  intros Horder Hkey Hbad. rewrite Build_phases.
  pose proof (buildPrelude_frame c) as Hpre.
  destruct (buildPrelude c) as [config|e|]; simpl; [| eauto | contradiction].
  destruct (buildHosts_run order c config Horder) as (config' & _ & _ & ->).
  { intros E. rewrite E, lookup_empty in Hkey. now destruct Hkey. }
  destruct (staticMappings_Err (Hosts c) (sort_Strings order) bad)
    as [e ->]; simpl; eauto.
  - intros k Hk. rewrite sort_Strings_Permutation in Hk.
    now apply (range_order_lookup _ order).
  - rewrite sort_Strings_Permutation.
    now apply (range_order_lookup (Hosts c)).
Qed.

(** An [ext:] key whose argument does not split on [":"] into exactly two
    pieces, be it one piece or three and more, makes [Build] fail. *)
Theorem Build_ext_wrong_arity_aborts (order : list string) (c : DnsConfig)
    (arg : string) :
  range_order (Hosts c) order ->
  is_Some (Hosts c !! ("ext:" +:+ arg)) ->
  List.length (Split arg ":"%char) <> 2 ->
  exists e, Build order c = Err e.
Proof.
  intros Horder Hkey Hlen.
  apply (Build_failing_key_aborts order c ("ext:" +:+ arg)); try assumption.
  intros addr. unfold hostMappings.
  assert (Hp : HasPrefix ("ext:" +:+ arg) "ext:" = true)
    by (apply HasPrefix_spec; now exists arg).
  prefix_chain ("ext:" +:+ arg) Hp.
  change 4 with (len "ext:"). rewrite str_drop_app.
  destruct (Split arg ":"%char) as [|f [|t [|x l]]]; simpl in Hlen;
    eauto; lia.
Qed.

(** A key of [Hosts] that names a list the loader cannot load makes [Build]
    fail: an [ext:file:tag] key when [file] and [tag] are refused, a
    [geosite:tag] key when the default file and the upper-cased tag are. *)
Theorem Build_unknown_list_aborts (order : list string) (c : DnsConfig)
    (key file tag : string) (err : Error) :
  range_order (Hosts c) order ->
  is_Some (Hosts c !! key) ->
  (key = "ext:" +:+ (file +:+ (":" +:+ tag))
   /\ Contains file ":" = false /\ Contains tag ":" = false
   /\ loadGeositeWithAttr file tag = Fail err)
  \/ (key = "geosite:" +:+ tag
      /\ loadGeositeWithAttr "geosite.dat" (ToUpper tag) = Fail err) ->
  exists e, Build order c = Err e.
Proof.
  intros Horder Hkey Hcase.
  apply (Build_failing_key_aborts order c key); try assumption.
  intros addr. unfold hostMappings.
  destruct Hcase as [(-> & Hf & Ht & Hl) | (-> & Hl)].
  - match goal with |- context [HasPrefix ?k "ext:"] =>
      assert (Hp : HasPrefix k "ext:" = true)
        by (apply HasPrefix_spec; eexists; reflexivity);
      prefix_chain k Hp end.
    change 4 with (len "ext:").
    rewrite str_drop_app, (Split_file_tag _ _ Hf Ht), Hl. eauto.
  - assert (Hp : HasPrefix ("geosite:" +:+ tag) "geosite:" = true)
      by (apply HasPrefix_spec; now exists tag).
    prefix_chain ("geosite:" +:+ tag) Hp.
    change 8 with (len "geosite:"). rewrite str_drop_app, Hl. eauto.
Qed.

(** A key that names a list the loader knows expands into one mapping per
    entry of the list, in the order of the list, each with the kind and the
    value of its entry and all with the target of the key. *)
Theorem host_key_expansion (key file tag : string) (addr : Address)
    (domains : list router.Domain) :
  (key = "ext:" +:+ (file +:+ (":" +:+ tag))
   /\ Contains file ":" = false /\ Contains tag ":" = false
   /\ loadGeositeWithAttr file tag = Val domains)
  \/ (key = "geosite:" +:+ tag
      /\ loadGeositeWithAttr "geosite.dat" (ToUpper tag) = Val domains) ->
  exists mappings,
    hostMappings key addr = Ok mappings
    /\ Forall2 (fun d mapping =>
                  mapping = {| dns.Type' := typeMap (router.Type' d);
                               Pattern := Value d;
                               Ip := Ip (getHostMapping addr);
                               ProxiedDomain := ProxiedDomain (getHostMapping addr) |})
               domains mappings.
Proof.
  intros Hcase. exists (expand addr domains). split.
  - unfold hostMappings.
    destruct Hcase as [(-> & Hf & Ht & Hl) | (-> & Hl)].
    + match goal with |- context [HasPrefix ?k "ext:"] =>
        assert (Hp : HasPrefix k "ext:" = true)
          by (apply HasPrefix_spec; eexists; reflexivity);
        prefix_chain k Hp end.
      change 4 with (len "ext:").
      now rewrite str_drop_app, (Split_file_tag _ _ Hf Ht), Hl.
    + assert (Hp : HasPrefix ("geosite:" +:+ tag) "geosite:" = true)
        by (apply HasPrefix_spec; now exists tag).
      prefix_chain ("geosite:" +:+ tag) Hp.
      change 8 with (len "geosite:"). now rewrite str_drop_app, Hl.
  - unfold expand. clear Hcase.
    induction domains as [|d l IH]; simpl; constructor; auto.
Qed.

(** *** Further properties: what a successful build holds *)

Lemma staticMappings_Ok_groups hosts domains mappings :
  staticMappings hosts domains = Ok mappings ->
  exists groups,
    Forall2 (fun k ms => exists addr,
                           hosts !! k = Some addr /\ hostMappings k addr = Ok ms)
            domains groups
    /\ mappings = List.concat groups.
Proof.
  revert mappings. induction domains as [|d l IH]; intros mappings; simpl.
  - intros [= <-]. exists []. split; [constructor | reflexivity].
  - destruct (hosts !! d) as [addr|] eqn:Ed; [| discriminate].
    destruct (hostMappings d addr) as [ms|e|] eqn:Em; simpl; try discriminate.
    destruct (staticMappings hosts l) as [more|e|]; simpl; try discriminate.
    intros [= <-]. destruct (IH more eq_refl) as (groups & HF & ->).
    exists (ms :: groups). split; [| reflexivity].
    constructor; [| exact HF]. now exists addr.
Qed.

Lemma Build_Ok_inv order c cfg :
  range_order (Hosts c) order ->
  Build order c = Ok cfg ->
  exists config mappings,
    buildPrelude c = Ok config
    /\ (Hosts c <> ∅ ->
        staticMappings (Hosts c) (sort_Strings order) = Ok mappings)
    /\ (Hosts c = ∅ -> mappings = [])
    /\ HostRules cfg = hostItems (Hosts c) order
    /\ StaticHosts cfg = mappings
    /\ dns.Tag cfg = dns.Tag config /\ ClientIp cfg = ClientIp config
    /\ NameServer_ cfg = NameServer_ config
    /\ dns.Fake cfg = option_map fakeOf (Fake c).
Proof.
  intros Horder. rewrite Build_phases.
  pose proof (buildPrelude_frame c) as Hpre.
  destruct (buildPrelude c) as [config|e|]; simpl; try discriminate.
  destruct Hpre as (Hr & Hs & _ & Hf).
  destruct (decide (Hosts c = ∅)) as [E | Hne].
  - rewrite buildHosts_empty by exact E. simpl. rewrite buildFake_spec.
    intros [= <-].
    rewrite (range_order_empty order c Horder E).
    exists config, []. repeat split; try tauto;
      destruct (Fake c); simpl; congruence.
  - rewrite buildHosts_spec by assumption.
    destruct (staticMappings _ _) as [mappings|e|]; simpl; try discriminate.
    rewrite buildFake_spec. intros [= <-].
    exists config, mappings. rewrite Hr, Hs in *.
    repeat split; try tauto; destruct (Fake c); simpl; congruence.
Qed.

(** In the configuration [Build] returns, [StaticHosts] is made of one group
    of mappings per key of [Hosts], the groups in the increasing byte-wise
    order of their keys whatever the order of the visit, and each group is
    what the chain of prefix tests produces for its key and its target. *)
Theorem Build_StaticHosts_grouped_by_sorted_key (order : list string)
    (c : DnsConfig) (cfg : Config) :
  range_order (Hosts c) order ->
  Build order c = Ok cfg ->
  exists keys groups,
    keys ≡ₚ order
    /\ StronglySorted (fun a b => String.leb a b = true) keys
    /\ Forall2 (fun k ms => exists addr,
                  Hosts c !! k = Some addr /\ hostMappings k addr = Ok ms)
               keys groups
    /\ StaticHosts cfg = List.concat groups.
Proof.
  intros Horder HB.
  destruct (Build_Ok_inv order c cfg Horder HB)
    as (config & mappings & _ & Hne & He & _ & Hs & _).
  destruct (decide (Hosts c = ∅)) as [E | N].
  - rewrite (range_order_empty order c Horder E).
    exists [], []. rewrite Hs, (He E).
    repeat split; constructor.
  - destruct (staticMappings_Ok_groups _ _ _ (Hne N)) as (groups & HF & ->).
    exists (sort_Strings order), groups.
    split; [apply sort_Strings_Permutation |].
    split; [apply sort_Strings_StronglySorted |]. now split.
Qed.

Lemma hostItems_elem hosts order k addr :
  k ∈ order -> hosts !! k = Some addr ->
  loads (compressPattern k) = true ->
  hostItem addr k ∈ hostItems hosts order.
Proof.
  intros Hin Hk Hl. induction order as [|x l IH]; [inversion Hin |].
  simpl. apply elem_of_cons in Hin as [<- | Hin].
  - rewrite Hk, Hl. simpl. left.
  - destruct (hosts !! x); [apply elem_of_app; right |]; now apply IH.
Qed.

Lemma hostItems_inv hosts order item :
  item ∈ hostItems hosts order ->
  exists k addr,
    k ∈ order /\ hosts !! k = Some addr
    /\ loads (compressPattern k) = true /\ item = hostItem addr k.
Proof.
  induction order as [|x l IH]; simpl; [inversion 1 |].
  destruct (hosts !! x) as [addr|] eqn:E.
  - intros Hin. apply elem_of_app in Hin as [Hin | Hin].
    + destruct (loads (compressPattern x)) eqn:El; [| inversion Hin].
      apply list_elem_of_singleton in Hin as ->.
      exists x, addr. repeat split; try assumption. left.
    + destruct (IH Hin) as (k & a & ? & ? & ? & ?).
      exists k, a. repeat split; try assumption. now right.
  - intros Hin. destruct (IH Hin) as (k & a & ? & ? & ? & ?).
    exists k, a. repeat split; try assumption. now right.
Qed.

Lemma loadExternalRules_external arg c :
  loadExternalRules (String "e"%char arg) c =
  match Split arg ":"%char with
  | [filename; country] =>
      match loadGeositeWithAttr filename country with
      | Fail err =>
          Err (Base (newError [VString "invalid external settings from ";
                               VString filename; VString ": ";
                               VString arg]) err)
      | Val domains =>
          Ok (with_ExternalRules
                (<[arg := expansion domains]> (ExternalRules c)) c)
      end
  | _ => Err (newError [VString "invalid external resource: "; VString arg])
  end.
Proof. reflexivity. Qed.

Lemma loads_marker cmd rest :
  cmd <> "e"%char -> loads (String cmd rest) = true.
Proof.
  intros Hne. apply (loads_true _ (initial {| Servers := []; Hosts := ∅;
    ClientIP := None; Tag := ""; Fake := None |})).
  eexists. now apply loadExternalRules_String.
Qed.

(** When the mappings of a key that does not start with [geosite:] can be
    produced, the external rules of its compressed pattern load. *)
Lemma hostMappings_Ok_loads k addr ms :
  HasPrefix k "geosite:" = false ->
  hostMappings k addr = Ok ms ->
  loads (compressPattern k) = true.
Proof.
  intros Hgeo Hm.
  destruct (compressPattern_cases k)
    as [[_ ->] | (prefix & cmd & Hin & Hhit & ->)].
  - rewrite str_app_cons. now apply loads_marker.
  - unfold prefixMapper in Hin.
    repeat (apply elem_of_cons in Hin as [Hin | Hin];
            [injection Hin as -> ->;
             try (rewrite str_app_cons; apply loads_marker; discriminate) |]);
      [congruence | | inversion Hin].
    revert Hm. unfold hostMappings. prefix_chain k Hhit.
    change (len "ext:") with 4.
    rewrite str_app_cons, str_app_empty_l.
    intros Hm.
    apply (loads_true _ (initial {| Servers := []; Hosts := ∅;
      ClientIP := None; Tag := ""; Fake := None |})).
    rewrite loadExternalRules_external.
    destruct (Split (drop 4 k) ":"%char) as [|f [|t [|x l]]];
      try discriminate Hm.
    destruct (loadGeositeWithAttr f t); [eexists; reflexivity | discriminate Hm].
Qed.

(** In the configuration [Build] returns, every item of [HostRules] is the
    rule of a key of [Hosts]: it carries the compressed key, the target of
    the key and the kind [Full], whatever the dialect of the key; there are
    no more items than keys; and every key has its item, except possibly
    the keys that start with [geosite:]. *)
Theorem Build_HostRules_cover_the_keys (order : list string) (c : DnsConfig)
    (cfg : Config) :
  range_order (Hosts c) order ->
  Build order c = Ok cfg ->
  (forall item, item ∈ HostRules cfg ->
     exists k addr,
       Hosts c !! k = Some addr
       /\ item = {| dns.Type' := DomainMatchingType_Full;
                    Pattern := compressPattern k;
                    Ip := Ip (getHostMapping addr);
                    ProxiedDomain := ProxiedDomain (getHostMapping addr) |})
  /\ List.length (HostRules cfg) <= size (Hosts c)
  /\ (forall k addr,
        Hosts c !! k = Some addr -> HasPrefix k "geosite:" = false ->
        {| dns.Type' := DomainMatchingType_Full;
           Pattern := compressPattern k;
           Ip := Ip (getHostMapping addr);
           ProxiedDomain := ProxiedDomain (getHostMapping addr) |}
        ∈ HostRules cfg).
Proof.
  intros Horder HB.
  destruct (Build_Ok_inv order c cfg Horder HB)
    as (config & mappings & _ & Hne & _ & Hr & _).
  rewrite Hr. split; [| split].
  - intros item Hin.
    destruct (hostItems_inv _ _ _ Hin) as (k & addr & _ & Hk & _ & ->).
    now exists k, addr.
  - assert (Hlen : List.length order = size (Hosts c)).
    { unfold range_order in Horder. rewrite Horder, length_fmap.
      apply length_map_to_list. }
    rewrite <- Hlen. clear. induction order as [|x l IH]; simpl; [lia |].
    destruct (Hosts c !! x); [| lia].
    rewrite length_app. destruct (loads (compressPattern x)); simpl; lia.
  - intros k addr Hk Hgeo.
    assert (Hin : k ∈ order)
      by (apply (range_order_lookup (Hosts c)); [exact Horder | eauto]).
    apply (hostItems_elem _ _ k addr Hin Hk).
    assert (N : Hosts c <> ∅)
      by (intros E; rewrite E, lookup_empty in Hk; discriminate).
    destruct (staticMappings_Ok_groups _ _ _ (Hne N)) as (groups & HF & _).
    assert (Hin' : k ∈ sort_Strings order)
      by now rewrite sort_Strings_Permutation.
    apply list_elem_of_lookup in Hin' as [i Hi].
    destruct (Forall2_lookup_l _ _ _ _ _ HF Hi) as (ms & _ & addr' & Hk' & Hm).
    rewrite Hk in Hk'. injection Hk' as <-.
    now apply (hostMappings_Ok_loads k addr ms).
Qed.


(** *** Further properties: name servers and the scalar fields *)

(** The priority domains one domain string of a name server gives. *)
Definition priorityDomains (d : string) : list NameServer_PriorityDomain :=
  match parseDomainRule d with
  | Val parsedDomain =>
      map (fun pd => {| pdType := toDomainMatchingType (router.Type' pd);
                        Domain := Value pd |}) parsedDomain
  | Fail _ => []
  end.

Lemma buildDomains_parsed ds domains :
  (forall d, d ∈ ds -> exists pds, parseDomainRule d = Val pds) ->
  buildDomains ds domains
  = Ok (domains ++ List.concat (map priorityDomains ds)).
Proof.
  revert domains. induction ds as [|d rest IH]; intros domains Hall; simpl.
  - now rewrite app_nil_r.
  - destruct (Hall d) as [pds Hd]; [left |].
    unfold priorityDomains at 1. rewrite Hd.
    rewrite IH by (intros x Hx; apply Hall; now right).
    now rewrite <- app_assoc.
Qed.

Lemma buildDomains_first_failure good d rest err domains :
  (forall g, g ∈ good -> exists pds, parseDomainRule g = Val pds) ->
  parseDomainRule d = Fail err ->
  buildDomains (good ++ d :: rest) domains
  = Err (Base (newError [VString "invalid domain rule: "; VString d]) err).
Proof.
  revert domains. induction good as [|g good IH]; intros domains Hall Hd; simpl.
  - now rewrite Hd.
  - destruct (Hall g) as [pds Hg]; [left |]. rewrite Hg.
    apply IH; [| exact Hd]. intros x Hx. apply Hall. now right.
Qed.

(** How [NameServerConfig.Build] fails: without an address it reports that
    and looks at nothing else; with one, the first domain string the parser
    refuses is reported with the parser's error, whatever follows it and
    whatever the expected addresses are; when all domains parse, a refused
    list of expected addresses is reported. *)
Theorem NameServerConfig_Build_failures (c : NameServerConfig) :
  (Address_ c = None ->
   NameServerConfig_Build c
   = Err (newError [VString "NameServer address is not specified."]))
  /\ (forall address good d rest err,
        Address_ c = Some address ->
        Domains c = good ++ d :: rest ->
        (forall g, g ∈ good -> exists pds, parseDomainRule g = Val pds) ->
        parseDomainRule d = Fail err ->
        NameServerConfig_Build c
        = Err (Base (newError [VString "invalid domain rule: "; VString d])
                    err))
  /\ (forall address err,
        Address_ c = Some address ->
        (forall d, d ∈ Domains c -> exists pds, parseDomainRule d = Val pds) ->
        toCidrList (ExpectIPs c) = Fail err ->
        NameServerConfig_Build c
        = Err (Base (newError [VString "invalid ip rule: ";
                               VStringList (ExpectIPs c)]) err)).
Proof.
  unfold NameServerConfig_Build. repeat split.
  - now intros ->.
  - intros address good d rest err -> -> Hgood Hd.
    now rewrite (buildDomains_first_failure good d rest err [] Hgood Hd).
  - intros address err -> Hall Hip.
    rewrite (buildDomains_parsed _ [] Hall). simpl. now rewrite Hip.
Qed.

(** When the address is present, every domain string parses and the
    expected addresses are accepted, [NameServerConfig.Build] succeeds: the
    endpoint is the address with the port of the configuration, over UDP,
    and the priority domains are those of the first domain string, then
    those of the second, and so on, each parsed rule with its kind
    translated. *)
Theorem NameServerConfig_Build_success (c : NameServerConfig)
    (address : Address) (geoipList : list GeoIP) :
  Address_ c = Some address ->
  (forall d, d ∈ Domains c -> exists pds, parseDomainRule d = Val pds) ->
  toCidrList (ExpectIPs c) = Val geoipList ->
  NameServerConfig_Build c
  = Ok {| nsAddress := {| Network := "UDP"; epAddress := address;
                          Port := nscPort c |};
          PrioritizedDomain :=
            List.concat
              (map (fun d =>
                      match parseDomainRule d with
                      | Val pds =>
                          map (fun pd =>
                                 {| pdType := toDomainMatchingType (router.Type' pd);
                                    Domain := Value pd |}) pds
                      | Fail _ => []
                      end) (Domains c));
          Geoip := geoipList |}.
Proof.
  intros Ha Hall Hip. unfold NameServerConfig_Build.
  rewrite Ha, (buildDomains_parsed _ [] Hall). simpl. now rewrite Hip.
Qed.

Lemma buildServers_Ok_inv servers config config' :
  buildServers servers config = Ok config' ->
  exists nss,
    Forall2 (fun s ns => NameServerConfig_Build s = Ok ns) servers nss
    /\ config' = with_NameServer (NameServer_ config ++ nss) config.
Proof.
  revert config. induction servers as [|s rest IH]; intros config; simpl.
  - intros [= <-]. exists []. split; [constructor |].
    rewrite app_nil_r. now destruct config.
  - destruct (NameServerConfig_Build s) as [ns|e|] eqn:E; try discriminate.
    intros H. destruct (IH _ H) as (nss & HF & ->).
    exists (ns :: nss). split; [now constructor |].
    simpl. now rewrite <- app_assoc.
Qed.

Lemma buildServers_first_failure good s rest err config :
  (forall g, g ∈ good -> exists ns, NameServerConfig_Build g = Ok ns) ->
  NameServerConfig_Build s = Err err ->
  buildServers (good ++ s :: rest) config
  = Err (Base (newError [VString "failed to build name server"]) err).
Proof.
  revert config. induction good as [|g good IH]; intros config Hall Hs; simpl.
  - now rewrite Hs.
  - destruct (Hall g) as [ns Hg]; [left |]. rewrite Hg.
    apply IH; [| exact Hs]. intros x Hx. apply Hall. now right.
Qed.

(** [Build] looks at the client address before anything else: when it is a
    domain name the build fails with that complaint, whatever the servers,
    the hosts and the fake settings are. *)
Theorem Build_ClientIP_must_be_IP (order : list string) (c : DnsConfig)
    (domain : string) :
  ClientIP c = Some (DomainAddress domain) ->
  Build order c
  = Err (newError [VString "not an IP address:";
                   VString (Address_String (DomainAddress domain))]).
Proof.
  intros H. unfold Build, buildClientIP. now rewrite H.
Qed.

(** When the client address is absent or an IP address, the first server
    that fails to build makes [Build] fail with that server's error wrapped,
    whatever the hosts and the fake settings are. *)
Theorem Build_first_failing_server (order : list string) (c : DnsConfig)
    (good : list NameServerConfig) (s : NameServerConfig)
    (rest : list NameServerConfig) (err : Error) :
  ClientIP c = None \/ (exists bytes, ClientIP c = Some (IPAddress bytes)) ->
  Servers c = good ++ s :: rest ->
  (forall g, g ∈ good -> exists ns, NameServerConfig_Build g = Ok ns) ->
  NameServerConfig_Build s = Err err ->
  Build order c
  = Err (Base (newError [VString "failed to build name server"]) err).
Proof.
  intros Hip Hs Hgood Hbad. unfold Build, buildClientIP.
  destruct Hip as [-> | [bytes ->]]; simpl; rewrite Hs;
    now rewrite (buildServers_first_failure good s rest err _ Hgood Hbad).
Qed.

(** What a successful [Build] copies: the tag, the bytes of the client
    address if there is one, and one name server per server configuration,
    in the order given, each the result of building that configuration; the
    fake settings are present exactly when they are in the input. *)
Theorem Build_copies_tag_client_servers (order : list string) (c : DnsConfig)
    (cfg : Config) :
  range_order (Hosts c) order ->
  Build order c = Ok cfg ->
  dns.Tag cfg = Tag c
  /\ ClientIp cfg = match ClientIP c with
                    | Some (IPAddress bytes) => bytes
                    | _ => []
                    end
  /\ Forall2 (fun s ns => NameServerConfig_Build s = Ok ns)
             (Servers c) (NameServer_ cfg)
  /\ (dns.Fake cfg = None <-> Fake c = None).
Proof.
  intros Horder HB.
  destruct (Build_Ok_inv order c cfg Horder HB)
    as (config & mappings & Hpre & _ & _ & _ & _ & -> & -> & -> & ->).
  unfold buildPrelude, buildClientIP in Hpre.
  assert (Hfake : option_map fakeOf (Fake c) = None <-> Fake c = None)
    by (destruct (Fake c); simpl; split; congruence).
  destruct (ClientIP c) as [[bytes|domain]|]; simpl in Hpre;
    try discriminate;
    apply buildServers_Ok_inv in Hpre as (nss & HF & ->); simpl;
    repeat split; try exact HF; apply Hfake.
Qed.

(** *** Further properties: what the index holds *)

Lemma storeAll_lookup patterns m k v :
  storeAll patterns m !! k = Some v ->
  m !! k = Some v
  \/ exists pattern, pattern ∈ patterns /\ entryOf pattern = Some (k, v).
Proof.
  unfold storeAll. revert m.
  induction patterns as [|p rest IH]; intros m; simpl; [now left |].
  intros H. apply IH in H as [H | (q & Hq & Eq)].
  - destruct (entryOf p) as [[a r]|] eqn:E; simpl in H; [| now left].
    destruct (decide (a = k)) as [-> | N].
    + rewrite lookup_insert_eq in H. injection H as ->.
      right. exists p. split; [left | exact E].
    + rewrite lookup_insert_ne in H by exact N. now left.
  - right. exists q. split; [now right | exact Eq].
Qed.

Lemma Build_ExternalRules_fold order c cfg :
  range_order (Hosts c) order ->
  Build order c = Ok cfg ->
  ExternalRules cfg =
  storeAll (match Fake c with
            | Some fake => map compressPattern (FakeRules fake)
            | None => []
            end)
           (storeAll (map compressPattern order) ∅).
Proof.
  intros Horder. rewrite Build_phases.
  pose proof (buildPrelude_frame c) as Hpre.
  destruct (buildPrelude c) as [config|e|]; simpl; try discriminate.
  destruct Hpre as (_ & _ & Hx & _).
  destruct (decide (Hosts c = ∅)) as [E | Hne].
  - rewrite buildHosts_empty by exact E. simpl. rewrite buildFake_spec.
    rewrite (range_order_empty order c Horder E). intros [= <-].
    destruct (Fake c); simpl; now rewrite Hx.
  - rewrite buildHosts_spec by assumption.
    destruct (staticMappings _ _) as [mappings|e|]; simpl; try discriminate.
    rewrite buildFake_spec. intros [= <-].
    destruct (Fake c); simpl; now rewrite Hx.
Qed.

(** The index of the configuration [Build] returns holds nothing but
    expansions of lists the input names: every entry stands under a key
    [file:tag] that follows the external marker in the compressed form of a
    key of [Hosts] or of a fake rule, and its value is the compressed output
    of the loader for that file and tag. *)
Theorem Build_index_holds_only_named_lists (order : list string)
    (c : DnsConfig) (cfg : Config) (k : string) (v : ConfigPatterns) :
  range_order (Hosts c) order ->
  Build order c = Ok cfg ->
  ExternalRules cfg !! k = Some v ->
  (exists filename country domains,
     Split k ":"%char = [filename; country]
     /\ loadGeositeWithAttr filename country = Val domains
     /\ Patterns v
        = map (fun d => typeMapper (router.Type' d) +:+ Value d) domains)
  /\ ((exists key, is_Some (Hosts c !! key)
                   /\ compressPattern key = String "e"%char k)
      \/ (exists fake pattern,
            Fake c = Some fake /\ pattern ∈ FakeRules fake
            /\ compressPattern pattern = String "e"%char k)).
Proof.
  intros Horder HB Hk.
  rewrite (Build_ExternalRules_fold order c cfg Horder HB) in Hk.
  assert (Hentry : forall p, entryOf p = Some (k, v) ->
            p = String "e"%char k
            /\ exists filename country domains,
                 Split k ":"%char = [filename; country]
                 /\ loadGeositeWithAttr filename country = Val domains
                 /\ Patterns v
                    = map (fun d => typeMapper (router.Type' d) +:+ Value d)
                          domains).
  { intros p Ep. split; [now apply entryOf_key in Ep |].
    unfold entryOf in Ep.
    destruct (externalRulesOf p) as [entry|e|] eqn:E; try discriminate.
    subst entry.
    apply externalRulesOf_Ok_inv in E
      as [[? _] | (a & f & t & ds & _ & HS & HL & [= <- ->])];
      [discriminate |].
    exists f, t, ds. now repeat split. }
  apply storeAll_lookup in Hk as [Hk | (p & Hp & Ep)].
  - apply storeAll_lookup in Hk as [Hk | (p & Hp & Ep)];
      [now rewrite lookup_empty in Hk |].
    destruct (Hentry p Ep) as [-> Hlist]. split; [exact Hlist |].
    left. apply list_elem_of_fmap in Hp as (key & Hkey & Hin).
    exists key. split; [| now symmetry].
    now apply (range_order_lookup (Hosts c) order).
  - destruct (Hentry p Ep) as [-> Hlist]. split; [exact Hlist |].
    right. destruct (Fake c) as [fake|]; [| inversion Hp].
    apply list_elem_of_fmap in Hp as (pattern & Hpat & Hin).
    exists fake, pattern. now repeat split.
Qed.

(** *** The earlier revision of [DnsConfig.Build]

    The source file also holds the revision of the builder that preceded
    [loadExternalRules] and the fake rules.  Its [NameServerConfig.Build],
    [getHostMapping], [compressPattern], the tables and the second loop of
    [Build] are those above; [getHostPattern] only builds the item
    ([hostItem]); the input has a list [UseFake] where the later one has
    [Fake], and the output the flag [UseFake]. *)

Record EarlierDnsConfig : Type :=
  { eServers : list NameServerConfig;
    eHosts : gmap string Address;
    eClientIP : option Address;
    eTag : string;
    eUseFake : option (list string) }.

(** The fields the two revisions share, as the later record. *)
Definition shared (c : EarlierDnsConfig) : DnsConfig :=
  {| Servers := eServers c; Hosts := eHosts c; ClientIP := eClientIP c;
     Tag := eTag c; Fake := None |}.

(** The first loop of the earlier [Build]: the item of every key is appended
    before anything is checked; the loader is called for every key, with the
    empty file name and tag when the compressed pattern does not carry the
    external marker; and its expansion is stored under [Pattern[1:]]. *)
Fixpoint earlierRangeHosts (hosts : gmap string Address) (order : list string)
    (domains : list string) (config : Config)
  : result (list string * Config) :=
  match order with
  | [] => Ok (domains, config)
  | pattern :: rest =>
      match hosts !! pattern with
      | None => earlierRangeHosts hosts rest domains config
      | Some address =>
          let new_rule := hostItem address pattern in
          let config := with_HostRules (HostRules config ++ [new_rule]) config in
          match index (Pattern new_rule) 0 with
          | None => Panic
          | Some cmd =>
              let arg := drop 1 (Pattern new_rule) in
              names ← (if Ascii.eqb cmd "e"%char then
                         match Split arg ":"%char with
                         | [filename; country] => Ok (filename, country)
                         | _ => Err (newError
                                       [VString "invalid external resource: ";
                                        VString arg])
                         end
                       else Ok ("", ""));
              match loadGeositeWithAttr names.1 names.2 with
              | Fail err =>
                  Err (Base (newError
                               [VString "invalid external settings from ";
                                VString names.1; VString ": "; VString arg])
                            err)
              | Val domains' =>
                  earlierRangeHosts hosts rest (domains ++ [pattern])
                    (with_ExternalRules
                       (<[arg := expansion domains']> (ExternalRules config))
                       config)
              end
          end
      end
  end.

(** The earlier [DnsConfig.Build]: the configuration, its [Fake] unset, and
    the flag [UseFake]. *)
Definition earlierBuild (order : list string) (c : EarlierDnsConfig)
  : result (Config * bool) :=
  config ← buildClientIP (shared c) (initial (shared c));
  config ← buildServers (eServers c) config;
  config ← (if (0 <? size (eHosts c))%nat then
              '(domains, config') ← earlierRangeHosts (eHosts c) order [] config;
              staticHosts (eHosts c) (sort_Strings domains) config'
            else Ok config);
  Ok (config, match eUseFake c with Some _ => true | None => false end).

(** The host rules of the earlier revision: one per key. *)
Fixpoint allHostItems (hosts : gmap string Address) (order : list string)
  : list Config_HostMapping :=
  match order with
  | [] => []
  | pattern :: rest =>
      match hosts !! pattern with
      | Some address => hostItem address pattern :: allHostItems hosts rest
      | None => allHostItems hosts rest
      end
  end.

Lemma hostItems_all hosts order :
  (forall k, k ∈ order -> loads (compressPattern k) = true) ->
  hostItems hosts order = allHostItems hosts order.
Proof.
  induction order as [|k rest IH]; intros Hall; simpl; [reflexivity |].
  rewrite IH by (intros x Hx; apply Hall; now right).
  destruct (hosts !! k); [| reflexivity].
  now rewrite (Hall k) by left.
Qed.

Lemma earlierRangeHosts_Ok_inv hosts order domains config domains' config' :
  (forall k, k ∈ order -> is_Some (hosts !! k)) ->
  earlierRangeHosts hosts order domains config = Ok (domains', config') ->
  domains' = domains ++ order
  /\ HostRules config' = HostRules config ++ allHostItems hosts order
  /\ same_static config config'
  /\ (forall k, k ∈ order -> loads (compressPattern k) = true)
  /\ (forall k, k ∈ order ->
                is_Some (ExternalRules config' !! drop 1 (compressPattern k)))
  /\ (forall a, is_Some (ExternalRules config !! a) ->
                is_Some (ExternalRules config' !! a)).
Proof.
  revert domains config.
  induction order as [|pattern rest IH]; intros domains config Hkeys; simpl.
  - intros [= <- <-]. rewrite !app_nil_r.
    repeat split; auto; intros k Hk; inversion Hk.
  - destruct (Hkeys pattern) as [address Hl]; [left |]. rewrite Hl.
    destruct (compressPattern_head pattern) as (cmd & arg & E & _).
    change (Pattern (hostItem address pattern)) with (compressPattern pattern).
    rewrite E.
    cbn [index String.get drop].
    destruct (Ascii.eqb_spec cmd "e"%char) as [-> | Hne].
    + destruct (Split arg ":"%char) as [|f [|t [|x l]]] eqn:ES;
        try discriminate.
      cbn [mbind result_bind fst snd].
      destruct (loadGeositeWithAttr f t) as [ds|err] eqn:EL; [| discriminate].
      intros H. apply IH in H as (-> & Hr & Hs & Hloads & Hkeyed & Hmono);
        [| intros k Hk; apply Hkeys; now right].
      split; [now rewrite <- app_assoc |].
      split; [cbn [HostRules with_HostRules with_ExternalRules] in Hr;
              now rewrite Hr, <- app_assoc |].
      split; [exact Hs |].
      assert (Hhere : is_Some (ExternalRules config' !! arg))
        by (apply Hmono; simpl; rewrite lookup_insert_eq; eauto).
      split; [| split].
      * intros k Hk. apply elem_of_cons in Hk as [-> | Hk]; [| now apply Hloads].
        rewrite E. apply (loads_true _ config).
        rewrite loadExternalRules_external, ES, EL. eauto.
      * intros k Hk. apply elem_of_cons in Hk as [-> | Hk]; [| now apply Hkeyed].
        now rewrite E.
      * intros a Ha. apply Hmono. simpl.
        destruct (decide (arg = a)) as [<- | N];
          [rewrite lookup_insert_eq; eauto | now rewrite lookup_insert_ne].
    + cbn [mbind result_bind fst snd].
      destruct (loadGeositeWithAttr "" "") as [ds|err] eqn:EL; [| discriminate].
      intros H. apply IH in H as (-> & Hr & Hs & Hloads & Hkeyed & Hmono);
        [| intros k Hk; apply Hkeys; now right].
      split; [now rewrite <- app_assoc |].
      split; [cbn [HostRules with_HostRules with_ExternalRules] in Hr;
              now rewrite Hr, <- app_assoc |].
      split; [exact Hs |].
      assert (Hhere : is_Some (ExternalRules config' !! arg))
        by (apply Hmono; simpl; rewrite lookup_insert_eq; eauto).
      split; [| split].
      * intros k Hk. apply elem_of_cons in Hk as [-> | Hk]; [| now apply Hloads].
        rewrite E. now apply loads_marker.
      * intros k Hk. apply elem_of_cons in Hk as [-> | Hk]; [| now apply Hkeyed].
        now rewrite E.
      * intros a Ha. apply Hmono. simpl.
        destruct (decide (arg = a)) as [<- | N];
          [rewrite lookup_insert_eq; eauto | now rewrite lookup_insert_ne].
Qed.

Lemma earlierRangeHosts_needs_empty_list hosts order domains config bad err :
  (forall k, k ∈ order -> is_Some (hosts !! k)) ->
  bad ∈ order ->
  index (compressPattern bad) 0 <> Some "e"%char ->
  loadGeositeWithAttr "" "" = Fail err ->
  exists e, earlierRangeHosts hosts order domains config = Err e.
Proof.
  intros Hkeys Hbad Hmark Hfail. revert domains config.
  induction order as [|pattern rest IH]; intros domains config;
    [inversion Hbad |].
  simpl. destruct (Hkeys pattern) as [address Hl]; [left |]. rewrite Hl.
  destruct (compressPattern_head pattern) as (cmd & arg & E & _).
  change (Pattern (hostItem address pattern)) with (compressPattern pattern).
  rewrite E.
  cbn [index String.get drop].
  assert (Hrest : bad ∈ rest ->
            forall domains config,
              exists e, earlierRangeHosts hosts rest domains config = Err e).
  { intros Hin. apply IH; [| exact Hin]. intros k Hk. apply Hkeys. now right. }
  destruct (Ascii.eqb_spec cmd "e"%char) as [-> | Hne].
  - apply elem_of_cons in Hbad as [-> | Hbad];
      [rewrite E in Hmark; now destruct Hmark |].
    destruct (Split arg ":"%char) as [|f [|t [|x l]]]; simpl; eauto.
    destruct (loadGeositeWithAttr f t); eauto.
  - simpl. rewrite Hfail. eauto.
Qed.

(** The earlier revision asks the loader for a list on behalf of every key,
    with the empty file name and the empty tag when the key is no external
    reference: if the loader refuses those, a [Hosts] map that holds such a
    key cannot be built. *)
Theorem earlierBuild_needs_the_empty_list (order : list string)
    (c : EarlierDnsConfig) (key : string) (err : Error) :
  range_order (eHosts c) order ->
  is_Some (eHosts c !! key) ->
  index (compressPattern key) 0 <> Some "e"%char ->
  loadGeositeWithAttr "" "" = Fail err ->
  exists e, earlierBuild order c = Err e.
Proof.
  intros Horder Hkey Hmark Hfail. unfold earlierBuild.
  fold (buildPrelude (shared c)).
  pose proof (buildPrelude_frame (shared c)) as Hpre.
  unfold buildPrelude in Hpre. cbn [Servers shared] in Hpre.
  destruct (buildClientIP (shared c) (initial (shared c))) as [c1|e|];
    simpl in *; [| eauto | contradiction].
  destruct (buildServers (eServers c) c1) as [config|e|]; simpl;
    [| eauto | contradiction].
  assert (Hsize : (0 <? size (eHosts c))%nat = true).
  { apply Nat.ltb_lt. destruct (size (eHosts c)) eqn:Es; [| lia].
    apply map_size_empty_inv in Es. rewrite Es, lookup_empty in Hkey.
    now destruct Hkey. }
  rewrite Hsize.
  destruct (earlierRangeHosts_needs_empty_list (eHosts c) order [] config
              key err) as [e ->]; simpl; eauto.
  - intros k Hk. now apply (range_order_lookup _ order).
  - now apply (range_order_lookup (eHosts c)).
Qed.

(** Whatever the earlier revision builds, the later one builds too, with
    the same tag, client address, name servers, host rules and static hosts.
    In the result of the earlier revision there is one host rule per key, in
    the order of the visit, and the index has an entry under what follows
    the first byte of every compressed key, external or not. *)
Theorem earlierBuild_refined_by_Build (order : list string)
    (c : EarlierDnsConfig) (cfg0 : Config) (useFake : bool) :
  range_order (eHosts c) order ->
  earlierBuild order c = Ok (cfg0, useFake) ->
  (exists cfg,
     Build order (shared c) = Ok cfg
     /\ dns.Tag cfg = dns.Tag cfg0 /\ ClientIp cfg = ClientIp cfg0
     /\ NameServer_ cfg = NameServer_ cfg0
     /\ HostRules cfg = HostRules cfg0
     /\ StaticHosts cfg = StaticHosts cfg0)
  /\ map Pattern (HostRules cfg0) = map compressPattern order
  /\ (forall k, k ∈ order ->
                is_Some (ExternalRules cfg0 !! drop 1 (compressPattern k)))
  /\ (useFake = true <-> is_Some (eUseFake c)).
Proof.
  intros Horder. unfold earlierBuild. rewrite Build_phases.
  unfold buildPrelude. cbn [Servers shared].
  pose proof (buildPrelude_frame (shared c)) as Hpre.
  unfold buildPrelude in Hpre. cbn [Servers shared] in Hpre.
  destruct (buildClientIP (shared c) (initial (shared c))) as [c1|e|];
    simpl in *; try discriminate.
  destruct (buildServers (eServers c) c1) as [config|e|]; simpl in *;
    try discriminate.
  destruct Hpre as (Hr0 & Hs0 & _ & _).
  assert (Hflag : forall b, b = match eUseFake c with Some _ => true | None => false end ->
                            b = true <-> is_Some (eUseFake c)).
  { intros b ->. destruct (eUseFake c); split; eauto; try discriminate.
    intros [? ?]. discriminate. }
  destruct (decide (eHosts c = ∅)) as [E | Hne].
  - rewrite (buildHosts_empty order (shared c) config E).
    rewrite E, map_size_empty. simpl. intros [= <- Hb].
    rewrite (range_order_empty order (shared c) Horder E).
    split; [exists config; now repeat split |].
    split; [now rewrite Hr0 |]. split; [intros k Hk; inversion Hk |].
    now apply Hflag.
  - assert (Hsize : (0 <? size (eHosts c))%nat = true).
    { apply Nat.ltb_lt. apply map_size_non_empty_iff in Hne. lia. }
    rewrite Hsize.
    destruct (earlierRangeHosts (eHosts c) order [] config)
      as [[domains' config']|e|] eqn:ER; simpl; try discriminate.
    apply earlierRangeHosts_Ok_inv in ER
      as (-> & Hr & (Ht & Hc & Hn & Hs & Hf) & Hloads & Hkeyed & _);
      [| intros k Hk; now apply (range_order_lookup _ order)].
    simpl. rewrite staticHosts_staticMappings.
    rewrite (buildHosts_spec order (shared c) config Horder Hne).
    cbn [Hosts shared].
    destruct (staticMappings (eHosts c) (sort_Strings order))
      as [mappings|e|]; simpl; try discriminate.
    intros [= <- Hb]. rewrite (hostItems_all _ _ Hloads).
    split; [eexists; split; [reflexivity |]; simpl;
            repeat split; congruence |].
    split; [| split; [exact Hkeyed | now apply Hflag]].
    simpl. rewrite Hr, Hr0. simpl. clear -Horder.
    assert (Hk : forall k, k ∈ order -> is_Some (eHosts c !! k))
      by (intros k Hk; now apply (range_order_lookup _ order)).
    clear Horder. induction order as [|k rest IH]; [reflexivity |].
    simpl. destruct (Hk k) as [a ->]; [left |]. simpl. f_equal.
    apply IH. intros x Hx. apply Hk. now right.
Qed.

End Builder.

(** *** Sample collaborators and runs *)

(** A list loader that knows one list, [geosite.dat] with the tag [cn]. *)
Definition sampleLists (filename country : string)
  : returned (list router.Domain) :=
  if String.eqb filename "geosite.dat" && String.eqb country "cn" then
    Val [ {| router.Type' := Domain_Domain; Value := "example.cn" |};
          {| router.Type' := Domain_Full; Value := "www.example.cn" |} ]
  else Fail (newError [VString "list not found: "; VString country]).

Definition sampleRules (d : string) : returned (list router.Domain) :=
  Val [ {| router.Type' := Domain_Full; Value := d |} ].

Definition sampleCidr (ips : list string) : returned (list GeoIP) :=
  Val [].

(** Upper-casing of the ASCII letters. *)
Definition upperByte (a : ascii) : ascii :=
  let n := nat_of_ascii a in
  if (97 <=? n)%nat && (n <=? 122)%nat then ascii_of_nat (n - 32) else a.

Fixpoint upperASCII (s : string) : string :=
  match s with
  | EmptyString => EmptyString
  | String a s' => String (upperByte a) (upperASCII s')
  end.

Definition sampleString (addr : Address) : string :=
  match addr with
  | IPAddress _ => "ip"
  | DomainAddress domain => domain
  end.

(** [Build] with the sample collaborators. *)
Definition sampleBuild : list string -> DnsConfig -> result Config :=
  Build sampleLists sampleRules sampleCidr upperASCII sampleString.

Definition localhost : Address :=
  IPAddress [Byte.x7f; Byte.x00; Byte.x00; Byte.x01].

Definition emptyConfig : Config :=
  {| dns.Tag := ""; ClientIp := []; NameServer_ := []; HostRules := [];
     StaticHosts := []; ExternalRules := ∅; dns.Fake := None |}.

Definition bare (hosts : gmap string Address) (fake : option FakeIPConfig)
  : DnsConfig :=
  {| Servers := []; Hosts := hosts; ClientIP := None; Tag := "dns";
     Fake := fake |}.

(** C1 on the code, with the table read backwards. *)
Lemma compressPattern_geosite_tag_as_written_witness :
  rev prefixMapper ≡ₚ prefixMapper
  /\ compressPattern_range (rev prefixMapper) "geosite:cn" = "egeosite.dat:cn"
  /\ compressPattern_range (rev prefixMapper) "geosite:cn" <> "egeosite.dat:CN".
Proof.
  assert (H : rev prefixMapper ≡ₚ prefixMapper)
    by (symmetry; apply Permutation_rev).
  split; [exact H |].
  destruct (compressPattern_geosite_tag_as_written sampleLists upperASCII
              (rev prefixMapper) localhost H) as (H1 & H2 & _).
  split; [exact H1 | exact H2].
Defined.

(** C10 at a subdomain pattern: nothing is loaded, nothing changes. *)
Lemma compressPattern_marker_witness :
  index (compressPattern "domain:example.com") 0 <> Some "e"%char
  /\ loadExternalRules sampleLists (compressPattern "domain:example.com")
       emptyConfig = Ok emptyConfig.
Proof.
  assert (H : index (compressPattern "domain:example.com") 0 <> Some "e"%char)
    by (vm_compute; discriminate).
  split; [exact H |].
  apply (compressPattern_marker sampleLists "domain:example.com" emptyConfig).
  exact H.
Defined.

(** C3 at the map [{"ext:onlyonepart": 127.0.0.1}]. *)
Lemma Build_malformed_ext_aborts_witness :
  exists e,
    sampleBuild ["ext:onlyonepart"]
      (bare (<["ext:onlyonepart" := localhost]> ∅) None) = Err e.
Proof.
  apply (Build_malformed_ext_aborts sampleLists sampleRules sampleCidr
           upperASCII sampleString ["ext:onlyonepart"]
           (bare (<["ext:onlyonepart" := localhost]> ∅) None) "onlyonepart").
  - unfold range_order. vm_compute. reflexivity.
  - vm_compute. eexists. reflexivity.
  - reflexivity.
Defined.

(** C4 at the fake rules [geosite:cn], which the sample loader knows, and
    [ext:missing.dat:xx], which it does not. *)
Lemma Build_fake_rules_drop_unresolved_witness :
  exists cfg fk,
    sampleBuild [] (bare ∅ (Some {| FakeRules := ["geosite:cn"; "ext:missing.dat:xx"];
                                    FakeNet := "" |})) = Ok cfg
    /\ dns.Fake cfg = Some fk
    /\ dns.FakeRules fk = ["egeosite.dat:cn"].
Proof.
  eapply (Build_fake_rules_drop_unresolved sampleLists sampleRules sampleCidr
            upperASCII sampleString []
            (bare ∅ (Some {| FakeRules := ["geosite:cn"; "ext:missing.dat:xx"];
                             FakeNet := "" |}))
            {| FakeRules := ["geosite:cn"; "ext:missing.dat:xx"]; FakeNet := "" |}
            "geosite:cn" "ext:missing.dat:xx").
  - reflexivity.
  - left. reflexivity.
  - intros cfg. apply (loads_true sampleLists). vm_compute. reflexivity.
  - intros cfg. apply (loads_false sampleLists). vm_compute. reflexivity.
  - vm_compute. reflexivity.
Defined.

(** C6 with the map ranged over from the larger key to the smaller. *)
Lemma Build_static_hosts_sorted_witness :
  exists cfg,
    sampleBuild ["full:b.com"; "domain:a.com"]
      (bare (twoHosts localhost (DomainAddress "proxy.example")) None) = Ok cfg
    /\ StaticHosts cfg =
       [ {| dns.Type' := DomainMatchingType_Subdomain; Pattern := "a.com";
            Ip := [[Byte.x7f; Byte.x00; Byte.x00; Byte.x01]];
            ProxiedDomain := "" |};
         {| dns.Type' := DomainMatchingType_Full; Pattern := "b.com";
            Ip := []; ProxiedDomain := "proxy.example" |} ].
Proof.
  eapply (Build_static_hosts_sorted sampleLists sampleRules sampleCidr
            upperASCII sampleString ["full:b.com"; "domain:a.com"]
            (bare (twoHosts localhost (DomainAddress "proxy.example")) None)
            localhost (DomainAddress "proxy.example")).
  - reflexivity.
  - unfold range_order. vm_compute. reflexivity.
  - vm_compute. reflexivity.
Defined.

(** C9 at a fake configuration that names no network. *)
Lemma Build_FakeNet_default_witness :
  exists cfg fk,
    sampleBuild [] (bare ∅ (Some {| FakeRules := []; FakeNet := "" |})) = Ok cfg
    /\ dns.Fake cfg = Some fk
    /\ dns.FakeNet fk = "224.0.0.0/8".
Proof.
  destruct (Build_FakeNet_default sampleLists sampleRules sampleCidr
              upperASCII sampleString []
              (bare ∅ (Some {| FakeRules := []; FakeNet := "" |}))
              {| FakeRules := []; FakeNet := "" |} {| dns.Tag := "dns"; ClientIp := []; NameServer_ := []; HostRules := [];
                 StaticHosts := []; ExternalRules := ∅; dns.Fake := None |} eq_refl)
    as (cfg & fk & HB & Hf & Hdefault & _).
  - vm_compute. reflexivity.
  - exists cfg, fk. split; [exact HB |]. split; [exact Hf |].
    apply Hdefault. reflexivity.
Defined.

(** C7 at [geosite:cn]: the expansion is stored under [geosite.dat:cn]. *)
Lemma external_rules_keyed_by_compressed_argument_witness :
  exists c',
    loadExternalRules sampleLists (compressPattern "geosite:cn") emptyConfig
      = Ok c'
    /\ ExternalRules c' !! "geosite.dat:cn" =
       Some {| Patterns := ["dexample.cn"; "fwww.example.cn"] |}.
Proof.
  destruct (loadExternalRules sampleLists (compressPattern "geosite:cn")
              emptyConfig) as [c'|e|] eqn:E; try (vm_compute in E; discriminate E).
  exists c'. split; [reflexivity |].
  destruct (proj1 (external_rules_keyed_by_compressed_argument sampleLists
                     sampleRules sampleCidr upperASCII sampleString)
              "geosite:cn" "geosite.dat:cn" emptyConfig c' eq_refl E)
    as (filename & country & domains & HS & HL & Hlookup & _).
  rewrite Hlookup. vm_compute in HS. injection HS as <- <-.
  vm_compute in HL. injection HL as <-. reflexivity.
Defined.

(** *** Runs of the further properties *)


Definition sampleServer : NameServerConfig :=
  {| Address_ := Some localhost; nscPort := 53%N;
     Domains := ["example.com"; "example.org"]; ExpectIPs := [] |}.

Definition noAddressServer : NameServerConfig :=
  {| Address_ := None; nscPort := 53%N; Domains := []; ExpectIPs := [] |}.

Lemma compressPattern_shorthands_witness :
  compressPattern "nodialect.com" = compressPattern "full:nodialect.com".
Proof.
  apply (proj2 (compressPattern_shorthands "" "nodialect.com")).
  intros prefix cmd Hin. unfold prefixMapper in Hin.
  repeat (apply elem_of_cons in Hin as [Hin | Hin];
          [injection Hin as -> ->; reflexivity |]).
  inversion Hin.
Defined.

Lemma loadExternalRules_idempotent_commutes_witness :
  exists c1,
    loadExternalRules sampleLists "egeosite.dat:cn" emptyConfig = Ok c1
    /\ loadExternalRules sampleLists "egeosite.dat:cn" c1 = Ok c1.
Proof.
  destruct (loadExternalRules sampleLists "egeosite.dat:cn" emptyConfig)
    as [c1|e|] eqn:E; try (vm_compute in E; discriminate E).
  exists c1. split; [reflexivity |].
  apply (proj1 (loadExternalRules_idempotent_commutes sampleLists
                  "egeosite.dat:cn" "fplain" emptyConfig c1 c1 E eq_refl)).
Defined.

Lemma Build_deterministic_up_to_HostRules_order_witness :
  match sampleBuild ["a.com"; "b.com"] twoPlainHosts,
        sampleBuild ["b.com"; "a.com"] twoPlainHosts with
  | Ok cfg1, Ok cfg2 =>
      with_HostRules [] cfg1 = with_HostRules [] cfg2
      /\ HostRules cfg1 ≡ₚ HostRules cfg2
  | Err e1, Err e2 => e1 = e2
  | _, _ => False
  end.
Proof.
  apply (Build_deterministic_up_to_HostRules_order sampleLists sampleRules
           sampleCidr upperASCII sampleString
           ["a.com"; "b.com"] ["b.com"; "a.com"] twoPlainHosts).
  - unfold range_order. vm_compute. reflexivity.
  - unfold range_order. vm_compute. apply perm_swap.
Defined.

Lemma Build_index_reads_in_range_witness :
  sampleBuild ["ext:onlyonepart"]
    (bare (<["ext:onlyonepart" := localhost]> ∅) None) <> Panic.
Proof.
  apply (Build_index_reads_in_range sampleLists sampleRules sampleCidr
           upperASCII sampleString ["ext:onlyonepart"]
           (bare (<["ext:onlyonepart" := localhost]> ∅) None)).
  unfold range_order. vm_compute. reflexivity.
Defined.

Definition twoFakeRules : FakeIPConfig :=
  {| FakeRules := ["geosite:cn"; "ext:missing.dat:xx"]; FakeNet := "" |}.

Lemma Build_fake_never_fatal_witness :
  match sampleBuild [] (with_Fake None (bare ∅ (Some twoFakeRules))),
        sampleBuild [] (bare ∅ (Some twoFakeRules)) with
  | Ok cfg0, Ok cfg =>
      dns.Tag cfg = dns.Tag cfg0 /\ ClientIp cfg = ClientIp cfg0
      /\ NameServer_ cfg = NameServer_ cfg0
      /\ HostRules cfg = HostRules cfg0
      /\ StaticHosts cfg = StaticHosts cfg0
      /\ ExternalRules cfg0 ⊆ ExternalRules cfg
  | Err e0, Err e => e0 = e
  | _, _ => False
  end.
Proof.
  apply (Build_fake_never_fatal sampleLists sampleRules sampleCidr upperASCII
           sampleString [] (bare ∅ (Some twoFakeRules))).
  unfold range_order. vm_compute. reflexivity.
Defined.

Lemma Build_fake_rules_are_the_loadable_ones_witness :
  exists cfg fk,
    sampleBuild [] (bare ∅ (Some twoFakeRules)) = Ok cfg
    /\ dns.Fake cfg = Some fk
    /\ dns.FakeRules fk
       `sublist_of` map compressPattern ["geosite:cn"; "ext:missing.dat:xx"].
Proof.
  destruct (sampleBuild [] (bare ∅ (Some twoFakeRules))) as [cfg|e|] eqn:E;
    try (vm_compute in E; discriminate E).
  destruct (Build_fake_rules_are_the_loadable_ones sampleLists sampleRules
              sampleCidr upperASCII sampleString []
              (bare ∅ (Some twoFakeRules)) twoFakeRules cfg eq_refl E)
    as (fk & Hfk & Hsub & _).
  exists cfg, fk. split; [reflexivity |]. split; [exact Hfk | exact Hsub].
Defined.

Lemma Build_ext_wrong_arity_aborts_witness :
  exists e,
    sampleBuild ["ext:a:b:c"] (bare (<["ext:a:b:c" := localhost]> ∅) None)
    = Err e.
Proof.
  apply (Build_ext_wrong_arity_aborts sampleLists sampleRules sampleCidr
           upperASCII sampleString ["ext:a:b:c"]
           (bare (<["ext:a:b:c" := localhost]> ∅) None) "a:b:c").
  - unfold range_order. vm_compute. reflexivity.
  - vm_compute. eexists. reflexivity.
  - vm_compute. discriminate.
Defined.

Lemma Build_unknown_list_aborts_witness :
  exists e,
    sampleBuild ["ext:missing.dat:xx"]
      (bare (<["ext:missing.dat:xx" := localhost]> ∅) None) = Err e.
Proof.
  eapply (Build_unknown_list_aborts sampleLists sampleRules sampleCidr
            upperASCII sampleString ["ext:missing.dat:xx"]
            (bare (<["ext:missing.dat:xx" := localhost]> ∅) None)
            "ext:missing.dat:xx" "missing.dat" "xx").
  - unfold range_order. vm_compute. reflexivity.
  - vm_compute. eexists. reflexivity.
  - left. repeat split; vm_compute; reflexivity.
Defined.

Lemma host_key_expansion_witness :
  exists mappings,
    hostMappings sampleLists upperASCII "ext:geosite.dat:cn" localhost
    = Ok mappings
    /\ List.length mappings = 2.
Proof.
  destruct (host_key_expansion sampleLists upperASCII "ext:geosite.dat:cn"
              "geosite.dat" "cn" localhost
              [ {| router.Type' := Domain_Domain; Value := "example.cn" |};
                {| router.Type' := Domain_Full; Value := "www.example.cn" |} ])
    as (mappings & Hm & HF).
  - left. repeat split; vm_compute; reflexivity.
  - exists mappings. split; [exact Hm |].
    apply Forall2_length in HF. now rewrite <- HF.
Defined.

Definition twoSampleHosts : DnsConfig :=
  bare (twoHosts localhost (DomainAddress "proxy.example")) None.

Lemma Build_StaticHosts_grouped_by_sorted_key_witness :
  exists cfg keys groups,
    sampleBuild ["full:b.com"; "domain:a.com"] twoSampleHosts = Ok cfg
    /\ keys ≡ₚ ["full:b.com"; "domain:a.com"]
    /\ StronglySorted (fun a b => String.leb a b = true) keys
    /\ StaticHosts cfg = List.concat groups.
Proof.
  destruct (sampleBuild ["full:b.com"; "domain:a.com"] twoSampleHosts)
    as [cfg|e|] eqn:E; try (vm_compute in E; discriminate E).
  destruct (Build_StaticHosts_grouped_by_sorted_key sampleLists sampleRules
              sampleCidr upperASCII sampleString
              ["full:b.com"; "domain:a.com"] twoSampleHosts cfg)
    as (keys & groups & Hperm & Hsorted & _ & Hs).
  - unfold range_order. vm_compute. reflexivity.
  - exact E.
  - exists cfg, keys, groups. now repeat split.
Defined.

Lemma Build_HostRules_cover_the_keys_witness :
  exists cfg,
    sampleBuild ["full:b.com"; "domain:a.com"] twoSampleHosts = Ok cfg
    /\ List.length (HostRules cfg) <= 2.
Proof.
  destruct (sampleBuild ["full:b.com"; "domain:a.com"] twoSampleHosts)
    as [cfg|e|] eqn:E; try (vm_compute in E; discriminate E).
  destruct (Build_HostRules_cover_the_keys sampleLists sampleRules
              sampleCidr upperASCII sampleString
              ["full:b.com"; "domain:a.com"] twoSampleHosts cfg)
    as (_ & Hlen & _).
  - unfold range_order. vm_compute. reflexivity.
  - exact E.
  - exists cfg. split; [reflexivity |]. exact Hlen.
Defined.


Lemma NameServerConfig_Build_failures_witness :
  NameServerConfig_Build sampleRules sampleCidr noAddressServer
  = Err (newError [VString "NameServer address is not specified."]).
Proof.
  apply (NameServerConfig_Build_failures sampleRules sampleCidr
           noAddressServer).
  reflexivity.
Defined.

Lemma NameServerConfig_Build_success_witness :
  exists ns,
    NameServerConfig_Build sampleRules sampleCidr sampleServer = Ok ns
    /\ map Domain (PrioritizedDomain ns) = ["example.com"; "example.org"].
Proof.
  eexists. split.
  - apply (NameServerConfig_Build_success sampleRules sampleCidr sampleServer
             localhost []).
    + reflexivity.
    + intros d _. eexists. reflexivity.
    + reflexivity.
  - reflexivity.
Defined.

Lemma Build_ClientIP_must_be_IP_witness :
  sampleBuild []
    {| Servers := []; Hosts := ∅; ClientIP := Some (DomainAddress "example.com");
       Tag := ""; Fake := None |}
  = Err (newError [VString "not an IP address:"; VString "example.com"]).
Proof.
  apply (Build_ClientIP_must_be_IP sampleLists sampleRules sampleCidr
           upperASCII sampleString []
           {| Servers := []; Hosts := ∅;
              ClientIP := Some (DomainAddress "example.com");
              Tag := ""; Fake := None |} "example.com").
  reflexivity.
Defined.

Lemma Build_first_failing_server_witness :
  sampleBuild []
    {| Servers := [sampleServer; noAddressServer; sampleServer]; Hosts := ∅;
       ClientIP := None; Tag := ""; Fake := None |}
  = Err (Base (newError [VString "failed to build name server"])
              (newError [VString "NameServer address is not specified."])).
Proof.
  apply (Build_first_failing_server sampleLists sampleRules sampleCidr
           upperASCII sampleString []
           {| Servers := [sampleServer; noAddressServer; sampleServer];
              Hosts := ∅; ClientIP := None; Tag := ""; Fake := None |}
           [sampleServer] noAddressServer [sampleServer]).
  - left. reflexivity.
  - reflexivity.
  - intros g Hg. apply list_elem_of_singleton in Hg as ->.
    eexists. reflexivity.
  - reflexivity.
Defined.

Lemma Build_copies_tag_client_servers_witness :
  exists cfg,
    sampleBuild []
      {| Servers := [sampleServer]; Hosts := ∅; ClientIP := Some localhost;
         Tag := "resolver"; Fake := None |} = Ok cfg
    /\ dns.Tag cfg = "resolver"
    /\ ClientIp cfg = [Byte.x7f; Byte.x00; Byte.x00; Byte.x01].
Proof.
  destruct (sampleBuild []
      {| Servers := [sampleServer]; Hosts := ∅; ClientIP := Some localhost;
         Tag := "resolver"; Fake := None |}) as [cfg|e|] eqn:E;
    try (vm_compute in E; discriminate E).
  destruct (Build_copies_tag_client_servers sampleLists sampleRules
              sampleCidr upperASCII sampleString []
              {| Servers := [sampleServer]; Hosts := ∅;
                 ClientIP := Some localhost; Tag := "resolver";
                 Fake := None |} cfg) as (Ht & Hc & _).
  - unfold range_order. vm_compute. reflexivity.
  - exact E.
  - exists cfg. split; [reflexivity |]. split; [exact Ht | exact Hc].
Defined.

(** A list loader that accepts every file and tag with the empty list. *)
Definition emptyLists (filename country : string)
  : returned (list router.Domain) := Val [].

Definition earlierSample : EarlierDnsConfig :=
  {| eServers := []; eHosts := {[ "a.com" := localhost ]}; eClientIP := None;
     eTag := "dns"; eUseFake := None |}.

Lemma earlierBuild_needs_the_empty_list_witness :
  exists e,
    earlierBuild sampleLists sampleRules sampleCidr upperASCII sampleString
      ["a.com"] earlierSample = Err e.
Proof.
  eapply (earlierBuild_needs_the_empty_list sampleLists sampleRules sampleCidr
            upperASCII sampleString ["a.com"] earlierSample "a.com").
  - unfold range_order. vm_compute. reflexivity.
  - vm_compute. eexists. reflexivity.
  - vm_compute. discriminate.
  - vm_compute. reflexivity.
Defined.

Lemma earlierBuild_refined_by_Build_witness :
  exists cfg0 cfg,
    earlierBuild emptyLists sampleRules sampleCidr upperASCII sampleString
      ["a.com"] earlierSample = Ok (cfg0, false)
    /\ Build emptyLists sampleRules sampleCidr upperASCII sampleString
         ["a.com"] (shared earlierSample) = Ok cfg
    /\ HostRules cfg = HostRules cfg0
    /\ StaticHosts cfg = StaticHosts cfg0.
Proof.
  destruct (earlierBuild emptyLists sampleRules sampleCidr upperASCII
              sampleString ["a.com"] earlierSample)
    as [[cfg0 [|]]|e|] eqn:E; try (vm_compute in E; discriminate E).
  destruct (earlierBuild_refined_by_Build emptyLists sampleRules sampleCidr
              upperASCII sampleString ["a.com"] earlierSample cfg0 false)
    as ((cfg & HB & _ & _ & _ & Hr & Hs) & _).
  - unfold range_order. vm_compute. reflexivity.
  - exact E.
  - exists cfg0, cfg. split; [reflexivity |]. split; [exact HB |].
    split; [exact Hr | exact Hs].
Defined.

Lemma Build_index_holds_only_named_lists_witness :
  exists cfg v,
    sampleBuild [] (bare ∅ (Some twoFakeRules)) = Ok cfg
    /\ ExternalRules cfg !! "geosite.dat:cn" = Some v
    /\ Split "geosite.dat:cn" ":"%char = ["geosite.dat"; "cn"].
Proof.
  destruct (sampleBuild [] (bare ∅ (Some twoFakeRules))) as [cfg|e|] eqn:E;
    try (vm_compute in E; discriminate E).
  destruct (ExternalRules cfg !! "geosite.dat:cn") as [v|] eqn:Ev;
    [| vm_compute in E; injection E as <-; vm_compute in Ev; discriminate Ev].
  destruct (Build_index_holds_only_named_lists sampleLists sampleRules
              sampleCidr upperASCII sampleString []
              (bare ∅ (Some twoFakeRules)) cfg "geosite.dat:cn" v)
    as ((f & t & ds & HS & _) & _).
  - unfold range_order. vm_compute. reflexivity.
  - exact E.
  - exact Ev.
  - exists cfg, v. split; [reflexivity |]. split; [exact Ev |].
    reflexivity.
Defined.

End conf.
